(** * Template processor of the publication style config server

    A shallow embedding of [src/services/template_processor.py] and the
    properties of its content-parsing and template-validation engine.

    Python values are modelled as follows.
    - [str] is [string]; a character is a code point in U+0000..U+00FF.
    - [int] is [Z]; lengths, offsets and counters are [nat].
    - A [dict] whose iteration order is observable (the section map, the
      citation summary) is an insertion-ordered association list [odict].
    - The template registry, only ever probed by key, is a [gmap].
    - [raise] is the left summand of [exn + A].
    - The regular expressions of [_initialize_formatting_rules] are terms of
      a small regex syntax, run by a backtracking matcher that follows the
      leftmost, greedy discipline of Python's [re] module. *)

From Stdlib Require Import Ascii ZArith Lia DecimalString Sorted.
From Stdlib Require String.
From stdpp Require Import base option list gmap strings.

Local Open Scope nat_scope.

(** ** Python strings *)

Module Py.

Definition nl : ascii := "010"%char.

(** [str.isspace] on one character of the Latin-1 range: TAB..CR,
    FS..US, SPACE, NEL and NBSP. *)
Definition isspace (c : ascii) : bool :=
  let n := nat_of_ascii c in
  ((9 <=? n) && (n <=? 13)) || ((28 <=? n) && (n <=? 32))
  || (n =? 133) || (n =? 160).

(** Decimal digits (the class [\d] and the digits [int] accepts). *)
Definition isdigit (c : ascii) : bool :=
  let n := nat_of_ascii c in (48 <=? n) && (n <=? 57).

Definition digit_val (c : ascii) : Z := Z.of_nat (nat_of_ascii c) - 48.

Definition isupper (c : ascii) : bool :=
  let n := nat_of_ascii c in
  ((65 <=? n) && (n <=? 90))
  || ((192 <=? n) && (n <=? 222) && negb (n =? 215)).

Definition islower_mapped (c : ascii) : bool :=
  let n := nat_of_ascii c in
  ((97 <=? n) && (n <=? 122))
  || ((224 <=? n) && (n <=? 254) && negb (n =? 247)).

(** Cased characters: the letters above plus the feminine and masculine
    ordinal indicators, the micro sign, sharp s and y with diaeresis. *)
Definition iscased (c : ascii) : bool :=
  let n := nat_of_ascii c in
  isupper c || islower_mapped c
  || (n =? 170) || (n =? 181) || (n =? 186) || (n =? 223) || (n =? 255).

Definition lower_char (c : ascii) : ascii :=
  if isupper c then ascii_of_nat (nat_of_ascii c + 32) else c.

(** Upper-casing leaves the range for sharp s, the micro sign and y with
    diaeresis; those three are kept as they are. *)
Definition upper_char (c : ascii) : ascii :=
  if islower_mapped c then ascii_of_nat (nat_of_ascii c - 32) else c.

Fixpoint map_chars (f : ascii -> ascii) (s : string) : string :=
  match s with
  | EmptyString => EmptyString
  | String c s' => String (f c) (map_chars f s')
  end.

(** [s.lower()] *)
Definition lower (s : string) : string := map_chars lower_char s.

(** [s.replace(a, b)] for single characters [a] and [b]. *)
Definition replace (a b : ascii) (s : string) : string :=
  map_chars (fun c => if Ascii.eqb c a then b else c) s.

(** [s.title()] *)
Fixpoint title_go (previous_is_cased : bool) (s : string) : string :=
  match s with
  | EmptyString => EmptyString
  | String c s' =>
      String (if previous_is_cased then lower_char c else upper_char c)
             (title_go (iscased c) s')
  end.
Definition title (s : string) : string := title_go false s.

Definition is_empty (s : string) : bool :=
  match s with EmptyString => true | String _ _ => false end.

(** Leading and trailing removal of the characters satisfying [p]. *)
Fixpoint lstrip_by (p : ascii -> bool) (s : string) : string :=
  match s with
  | EmptyString => EmptyString
  | String c s' => if p c then lstrip_by p s' else s
  end.

Fixpoint rstrip_by (p : ascii -> bool) (s : string) : string :=
  match s with
  | EmptyString => EmptyString
  | String c s' =>
      let r := rstrip_by p s' in
      if p c && is_empty r then EmptyString else String c r
  end.

(** [s.strip()] *)
Definition strip (s : string) : string := rstrip_by isspace (lstrip_by isspace s).

(** [s.lstrip(c)] for a one-character argument. *)
Definition lstrip_char (c : ascii) (s : string) : string :=
  lstrip_by (Ascii.eqb c) s.

(** [s.startswith(c)] for a one-character argument. *)
Definition startswith (c : ascii) (s : string) : bool :=
  match s with
  | String d _ => Ascii.eqb d c
  | EmptyString => false
  end.

(** [s.split(sep)] for a one-character separator: always at least one
    piece, empty pieces kept. *)
Fixpoint split (sep : ascii) (s : string) : list string :=
  match s with
  | EmptyString => [EmptyString]
  | String c s' =>
      if Ascii.eqb c sep then EmptyString :: split sep s'
      else match split sep s' with
           | w :: ws => String c w :: ws
           | [] => [String c EmptyString]
           end
  end.

(** [s.split()]: the maximal runs of non-whitespace characters. *)
Fixpoint split_ws (s : string) : list string :=
  match s with
  | EmptyString => []
  | String c s' =>
      if isspace c then split_ws s'
      else match s' with
           | EmptyString => [String c EmptyString]
           | String d _ =>
               if isspace d then String c EmptyString :: split_ws s'
               else match split_ws s' with
                    | w :: ws => String c w :: ws
                    | [] => [String c EmptyString]
                    end
           end
  end.

(** [sep.join(parts)] *)
Fixpoint join (sep : string) (parts : list string) : string :=
  match parts with
  | [] => EmptyString
  | [p] => p
  | p :: ps => p +:+ sep +:+ join sep ps
  end.

(** [s[i:j]] for [0 <= i <= j]. *)
Definition slice (i j : nat) (s : string) : string :=
  String.substring i (j - i) s.

(** [str(n)] for an [int]. *)
Definition str_of_Z (z : Z) : string := NilZero.string_of_int (Z.to_int z).
Definition str_of_nat (n : nat) : string := NilZero.string_of_uint (Nat.to_uint n).

(** Exceptions raised by the modelled code. *)
Inductive exn : Type :=
| ValueError (msg : string).

(** The digits of an integer literal, most significant first, with the
    single underscores Python allows between two digits. [acc] is the
    value read so far, [after_digit] tells whether the previous character
    was a digit. *)
Fixpoint int_digits (acc : Z) (after_digit : bool) (s : string) : option Z :=
  match s with
  | EmptyString => if after_digit then Some acc else None
  | String c s' =>
      if isdigit c then int_digits (10 * acc + digit_val c) true s'
      else if Ascii.eqb c "_"%char && after_digit then
        match s' with
        | String d _ => if isdigit d then int_digits acc false s' else None
        | EmptyString => None
        end
      else None
  end.

(** The whitespace [int] skips around a literal: of the characters of
    [isspace], FS..US are not among it. *)
Definition isspace_int (c : ascii) : bool :=
  let n := nat_of_ascii c in
  ((9 <=? n) && (n <=? 13)) || (n =? 32) || (n =? 133) || (n =? 160).

(** [int(s)]: surrounding whitespace is ignored, one sign is allowed,
    anything else raises [ValueError]. *)
Definition int (s : string) : exn + Z :=
  let t := rstrip_by isspace_int (lstrip_by isspace_int s) in
  let r := match t with
           | String c t' =>
               if Ascii.eqb c "-" then Z.opp <$> int_digits 0 false t'
               else if Ascii.eqb c "+" then int_digits 0 false t'
               else int_digits 0 false t
           | EmptyString => None
           end in
  match r with
  | Some z => inr z
  | None => inl (ValueError ("invalid literal for int() with base 10: '" +:+ s +:+ "'"))
  end.

End Py.

(** ** The exception monad *)

Definition raises (A : Type) : Type := (Py.exn + A)%type.

Definition ret {A} (a : A) : raises A := inr a.
Definition raise {A} (e : Py.exn) : raises A := inl e.
Definition bind {A B} (m : raises A) (f : A -> raises B) : raises B :=
  match m with
  | inl e => inl e
  | inr a => f a
  end.

Notation "'let!' x ':=' m 'in' k" := (bind m (fun x => k))
  (at level 10, x name, m at level 100, k at level 200).

(** A list comprehension whose element expression may raise: the first
    failure, left to right, aborts the whole comprehension. *)
Fixpoint for_each {A B} (f : A -> raises B) (l : list A) : raises (list B) :=
  match l with
  | [] => ret []
  | a :: l' => let! b := f a in let! bs := for_each f l' in ret (b :: bs)
  end.

(** ** Insertion-ordered dictionaries *)

Section OrderedDict.
Context {K V : Type} `{EqDecision K}.

Definition odict : Type := list (K * V).

(** [d.get(k)] *)
Fixpoint od_get (k : K) (d : odict) : option V :=
  match d with
  | [] => None
  | (k', v) :: d' => if decide (k = k') then Some v else od_get k d'
  end.

(** [k in d] *)
Definition od_mem (k : K) (d : odict) : bool := bool_decide (is_Some (od_get k d)).

(** [d[k] = v]: an existing key keeps its place and gets the new value,
    a new key goes to the end. *)
Fixpoint od_set (k : K) (v : V) (d : odict) : odict :=
  match d with
  | [] => [(k, v)]
  | (k', v') :: d' =>
      if decide (k = k') then (k', v) :: d' else (k', v') :: od_set k v d'
  end.

Definition od_keys (d : odict) : list K := d.*1.
Definition od_values (d : odict) : list V := d.*2.
End OrderedDict.

Arguments odict : clear implicits.

(** ** Regular expressions *)

Module Re.

(** The fragment of the pattern language the program uses. Repetition is
    greedy; [Grp n r] is the capturing group number [n]. *)
Inductive regex : Type :=
| Eps
| Chr (c : ascii)
| Cls (p : ascii -> bool)
| Seq (r1 r2 : regex)
| Alt (r1 r2 : regex)
| Star (r : regex)
| Grp (n : nat) (r : regex).

(** [r+], [r?], [r{n}] and a literal word. *)
Definition Plus (r : regex) : regex := Seq r (Star r).
Definition Opt (r : regex) : regex := Alt r Eps.
Fixpoint Rep (n : nat) (r : regex) : regex :=
  match n with
  | 0 => Eps
  | S n' => Seq r (Rep n' r)
  end.
Fixpoint Lit (s : string) : regex :=
  match s with
  | EmptyString => Eps
  | String c s' => Seq (Chr c) (Lit s')
  end.

Fixpoint Cat (rs : list regex) : regex :=
  match rs with
  | [] => Eps
  | [r] => r
  | r :: rs' => Seq r (Cat rs')
  end.

(** Group number to (start, end) offsets; the most recent binding first. *)
Definition captures : Type := list (nat * (nat * nat)).

Fixpoint cap_get (n : nat) (c : captures) : option (nat * nat) :=
  match c with
  | [] => None
  | (n', se) :: c' => if n =? n' then Some se else cap_get n c'
  end.

(** A successful match attempt: the offset just after the match, the text
    left from there on, and the groups. *)
Definition outcome : Type := nat * string * captures.

(** What remains to be matched, run at an offset on the text left there. *)
Definition cont : Type := nat -> string -> captures -> option outcome.

(** Greedy iteration of [body]: one more round first, the rest of the
    pattern second. A round that consumes nothing is refused. [fuel] bounds
    the number of rounds by the length of the text left. *)
Fixpoint star_loop (body : nat -> string -> captures -> cont -> option outcome)
    (fuel : nat) (pos : nat) (s : string) (c : captures) (k : cont) : option outcome :=
  match fuel with
  | 0 => k pos s c
  | S fuel' =>
      match body pos s c
              (fun pos' s' c' =>
                 if pos <? pos' then star_loop body fuel' pos' s' c' k else None) with
      | Some o => Some o
      | None => k pos s c
      end
  end.

(** The backtracking matcher: [rmatch r pos s c k] matches [r] at offset
    [pos], where the text left is [s], then runs [k]; the first success in
    the order left alternative first, longest repetition first, wins. *)
Fixpoint rmatch (r : regex) (pos : nat) (s : string) (c : captures) (k : cont)
    : option outcome :=
  match r with
  | Eps => k pos s c
  | Chr a =>
      match s with
      | String b s' => if Ascii.eqb b a then k (S pos) s' c else None
      | EmptyString => None
      end
  | Cls p =>
      match s with
      | String b s' => if p b then k (S pos) s' c else None
      | EmptyString => None
      end
  | Seq r1 r2 => rmatch r1 pos s c (fun pos' s' c' => rmatch r2 pos' s' c' k)
  | Alt r1 r2 =>
      match rmatch r1 pos s c k with
      | Some o => Some o
      | None => rmatch r2 pos s c k
      end
  | Star r1 => star_loop (rmatch r1) (String.length s) pos s c k
  | Grp n r1 =>
      rmatch r1 pos s c (fun pos' s' c' => k pos' s' ((n, (pos, pos')) :: c'))
  end.

Definition accept : cont := fun pos s c => Some (pos, s, c).

(** One attempt anchored at [pos]. *)
Definition match_at (r : regex) (pos : nat) (s : string) : option outcome :=
  rmatch r pos s [] accept.

(** A match object. *)
Record rmatch_obj : Type := MatchObj {
  m_start : nat;
  m_end : nat;
  m_caps : captures
}.

(** [m.span()] *)
Definition span (m : rmatch_obj) : nat * nat := (m_start m, m_end m).

(** [m.group(0)] and [m.group(n)] on the searched text; a group that did
    not take part in the match gives the empty string here. *)
Definition group0 (content : string) (m : rmatch_obj) : string :=
  Py.slice (m_start m) (m_end m) content.
Definition group (content : string) (m : rmatch_obj) (n : nat) : string :=
  match cap_get n (m_caps m) with
  | Some (a, b) => Py.slice a b content
  | None => EmptyString
  end.

Definition tail (s : string) : string :=
  match s with
  | EmptyString => EmptyString
  | String _ s' => s'
  end.

(** The left-to-right scan behind [re.finditer]: try at [pos]; after a
    match go on from its end, otherwise one character further. None of the
    patterns of this program matches the empty string; were one to, the
    scan would step over one character after it. *)
Fixpoint scan (r : regex) (fuel : nat) (pos : nat) (s : string) : list rmatch_obj :=
  match fuel with
  | 0 => []
  | S fuel' =>
      match match_at r pos s with
      | Some (e, s', c) =>
          MatchObj pos e c ::
            (if pos <? e then scan r fuel' e s'
             else if Py.is_empty s then [] else scan r fuel' (S pos) (tail s))
      | None =>
          if Py.is_empty s then [] else scan r fuel' (S pos) (tail s)
      end
  end.

(** [re.finditer(r, content)] *)
Definition finditer (r : regex) (content : string) : list rmatch_obj :=
  scan r (S (String.length content)) 0 content.

(** A replacement template: literal text and group references. *)
Inductive repl_item : Type :=
| RLit (s : string)
| RGroup (n : nat).

Fixpoint expand (tpl : list repl_item) (content : string) (m : rmatch_obj) : string :=
  match tpl with
  | [] => EmptyString
  | RLit s :: tpl' => s +:+ expand tpl' content m
  | RGroup n :: tpl' => group content m n +:+ expand tpl' content m
  end.

Fixpoint splice (tpl : list repl_item) (content : string) (pos : nat)
    (ms : list rmatch_obj) : string :=
  match ms with
  | [] => Py.slice pos (String.length content) content
  | m :: ms' =>
      Py.slice pos (m_start m) content +:+ expand tpl content m
        +:+ splice tpl content (m_end m) ms'
  end.

(** [re.sub(r, tpl, content)] *)
Definition sub (r : regex) (tpl : list repl_item) (content : string) : string :=
  splice tpl content 0 (finditer r content).

End Re.

(** ** The template processor *)

(** A template descriptor, one value of the dictionary built by
    [_initialize_templates]. [_validate_sections] reads [sections] and
    [required_sections] with a default of the empty list and tests whether
    [max_abstract_words] is there at all, hence the option. *)
Record TemplateConfig : Type := {
  tc_name : string;
  tc_sections : list string;
  tc_required_sections : list string;
  tc_section_order : bool;
  tc_max_abstract_words : option Z;
  tc_reference_format : string
}.

(** The entries of the dictionary literal, in the order written. *)
Definition template_table : list (string * TemplateConfig) :=
  [ ("article",
       {| tc_name := "Research Article";
          tc_sections :=
            ["title"; "authors"; "abstract"; "keywords";
             "introduction"; "methodology"; "results";
             "discussion"; "conclusion"; "references"];
          tc_required_sections := ["title"; "authors"; "abstract"];
          tc_section_order := true;
          tc_max_abstract_words := Some 250%Z;
          tc_reference_format := "numeric" |});
    ("conference_paper",
       {| tc_name := "Conference Paper";
          tc_sections :=
            ["title"; "authors"; "abstract"; "keywords";
             "introduction"; "approach"; "experiments";
             "results"; "conclusion"; "references"];
          tc_required_sections := ["title"; "authors"; "abstract"];
          tc_section_order := true;
          tc_max_abstract_words := Some 150%Z;
          tc_reference_format := "numeric" |});
    ("technical_report",
       {| tc_name := "Technical Report";
          tc_sections :=
            ["title"; "authors"; "executive_summary";
             "introduction"; "background"; "analysis";
             "findings"; "recommendations"; "appendices"];
          tc_required_sections := ["title"; "authors"; "executive_summary"];
          tc_section_order := false;
          tc_max_abstract_words := Some 500%Z;
          tc_reference_format := "author_year" |});
    ("thesis",
       {| tc_name := "Thesis/Dissertation";
          tc_sections :=
            ["title_page"; "abstract"; "acknowledgments";
             "table_of_contents"; "introduction"; "literature_review";
             "methodology"; "results"; "discussion";
             "conclusion"; "references"; "appendices"];
          tc_required_sections := ["title_page"; "abstract"; "introduction"];
          tc_section_order := true;
          tc_max_abstract_words := Some 350%Z;
          tc_reference_format := "author_year" |}) ].

Definition _initialize_templates : gmap string TemplateConfig :=
  list_to_map template_table.

(** Character classes of the patterns. *)
Definition cls_digit : Re.regex := Re.Cls Py.isdigit.
Definition cls_space : Re.regex := Re.Cls Py.isspace.
Definition isalpha_ascii (c : ascii) : bool :=
  let n := nat_of_ascii c in
  ((65 <=? n) && (n <=? 90)) || ((97 <=? n) && (n <=? 122)).
Definition cls_alpha : Re.regex := Re.Cls isalpha_ascii.
Definition cls_not (a : ascii) : Re.regex := Re.Cls (fun c => negb (Ascii.eqb c a)).

(** The patterns of [_initialize_formatting_rules] that some method reads,
    written with blanks between their parts. The emphasis patterns, the
    entries [citations.inline], [equations.numbered] and
    [figures_tables.equation_ref] and the table of special characters are
    stored there but never read. *)
Record FormattingRules : Type := {
  citations_numeric : Re.regex;
  citations_author_year : Re.regex;
  equations_inline : Re.regex;
  equations_display : Re.regex;
  figure_ref : Re.regex;
  table_ref : Re.regex
}.

(** The inside of a numeric citation:  \d+ (?: , \s* \d+ )*  *)
Definition numeric_inner : Re.regex :=
  Re.Seq (Re.Plus cls_digit)
         (Re.Star (Re.Seq (Re.Chr ",") (Re.Seq (Re.Star cls_space) (Re.Plus cls_digit)))).

(** The author of an author-year citation:  [A-Za-z]+ (?: \s+ et \s+ al \. )?  *)
Definition author_inner : Re.regex :=
  Re.Seq (Re.Plus cls_alpha)
         (Re.Opt (Re.Cat [Re.Plus cls_space; Re.Lit "et"; Re.Plus cls_space;
                          Re.Lit "al"; Re.Chr "."])).

Definition _initialize_formatting_rules : FormattingRules :=
  {| (* line 91:  \[  ( \d+ (?: , \s* \d+ )* )  \]   *)
     citations_numeric :=
       Re.Cat [Re.Chr "["; Re.Grp 1 numeric_inner; Re.Chr "]"];
     (* line 92:  \(  ( [A-Za-z]+ (?: \s+ et \s+ al \. )? )  ,?  \s+  ( \d{4} )  \)   *)
     citations_author_year :=
       Re.Cat [Re.Chr "("; Re.Grp 1 author_inner; Re.Opt (Re.Chr ",");
               Re.Plus cls_space; Re.Grp 2 (Re.Rep 4 cls_digit); Re.Chr ")"];
     (* line 96:  \$  ( [^$]+ )  \$   *)
     equations_inline :=
       Re.Cat [Re.Chr "$"; Re.Grp 1 (Re.Plus (cls_not "$")); Re.Chr "$"];
     (* line 97:  \$\$  ( [^$]+ )  \$\$   *)
     equations_display :=
       Re.Cat [Re.Lit "$$"; Re.Grp 1 (Re.Plus (cls_not "$")); Re.Lit "$$"];
     (* line 101:  Figure  \s+  ( \d+ )   *)
     figure_ref :=
       Re.Cat [Re.Lit "Figure"; Re.Plus cls_space; Re.Grp 1 (Re.Plus cls_digit)];
     (* line 102:  Table  \s+  ( \d+ )   *)
     table_ref :=
       Re.Cat [Re.Lit "Table"; Re.Plus cls_space; Re.Grp 1 (Re.Plus cls_digit)] |}.

(** The instance state: [self.templates] and [self.formatting_rules]. *)
Record TemplateProcessor : Type := {
  templates : gmap string TemplateConfig;
  formatting_rules : FormattingRules
}.

Definition __init__ : TemplateProcessor :=
  {| templates := _initialize_templates;
     formatting_rules := _initialize_formatting_rules |}.

(** *** Section segmentation *)

Definition normalization_map : odict string string :=
  [("abstract", "abstract");
   ("introduction", "introduction");
   ("background", "background");
   ("literature review", "literature_review");
   ("methodology", "methodology");
   ("methods", "methodology");
   ("approach", "approach");
   ("experiments", "experiments");
   ("experimental setup", "experiments");
   ("results", "results");
   ("findings", "findings");
   ("discussion", "discussion");
   ("analysis", "analysis");
   ("conclusion", "conclusion");
   ("conclusions", "conclusion");
   ("references", "references");
   ("bibliography", "references");
   ("acknowledgments", "acknowledgments");
   ("acknowledgements", "acknowledgments");
   ("appendix", "appendices");
   ("appendices", "appendices")].

Definition _normalize_section_name (header_text : string) : string :=
  default (Py.replace " " "_" header_text) (od_get header_text normalization_map).

Definition is_nil {A} (l : list A) : bool :=
  match l with [] => true | _ :: _ => false end.

(** The loop state of [_parse_content_sections]. *)
Record parse_state : Type := ParseState {
  ps_sections : odict string string;
  current_section : string;
  current_content : list string
}.

(** [if current_content: sections[current_section] = ...] *)
Definition save_section (st : parse_state) : odict string string :=
  if is_nil (current_content st) then ps_sections st
  else od_set (current_section st)
              (Py.strip (Py.join (String Py.nl EmptyString) (current_content st)))
              (ps_sections st).

(** One round of the loop over the lines. *)
Definition parse_line (st : parse_state) (line : string) : parse_state :=
  let line := Py.strip line in
  if Py.startswith "#" line then
    let sections := save_section st in
    let header_text := Py.lower (Py.strip (Py.lstrip_char "#" line)) in
    ParseState sections (_normalize_section_name header_text) []
  else if Py.is_empty line then st
  else ParseState (ps_sections st) (current_section st) (current_content st ++ [line]).

Definition parse_init : parse_state := ParseState [] "introduction" [].

Definition _parse_content_sections (content : string) : odict string string :=
  save_section (fold_left parse_line (Py.split Py.nl content) parse_init).

(** *** Validation *)

Record ValidationResult : Type := {
  v_valid : bool;
  v_errors : list string;
  v_warnings : list string;
  v_missing_required : list string;
  v_unexpected_sections : list string
}.

Definition validation_init : ValidationResult :=
  {| v_valid := true; v_errors := []; v_warnings := [];
     v_missing_required := []; v_unexpected_sections := [] |}.

(** One round of the loop over [required_sections]. *)
Definition check_required (sections : odict string string)
    (vr : ValidationResult) (required : string) : ValidationResult :=
  if od_mem required sections then vr
  else {| v_valid := false;
          v_errors := v_errors vr ++ ["Missing required section: " +:+ required];
          v_warnings := v_warnings vr;
          v_missing_required := v_missing_required vr ++ [required];
          v_unexpected_sections := v_unexpected_sections vr |}.

(** One round of the loop over the keys of [sections]. *)
Definition check_unexpected (allowed_sections : list string)
    (vr : ValidationResult) (section : string) : ValidationResult :=
  if bool_decide (section ∈ allowed_sections) then vr
  else {| v_valid := v_valid vr;
          v_errors := v_errors vr;
          v_warnings := v_warnings vr ++ ["Unexpected section: " +:+ section];
          v_missing_required := v_missing_required vr;
          v_unexpected_sections := v_unexpected_sections vr ++ [section] |}.

(** The abstract word count check. *)
Definition check_abstract (sections : odict string string)
    (template_config : TemplateConfig) (vr : ValidationResult) : ValidationResult :=
  match od_get "abstract" sections, tc_max_abstract_words template_config with
  | Some abstract, Some max_words =>
      let abstract_words := Z.of_nat (length (Py.split_ws abstract)) in
      if (abstract_words >? max_words)%Z then
        {| v_valid := v_valid vr;
           v_errors := v_errors vr;
           v_warnings :=
             v_warnings vr ++
               ["Abstract exceeds maximum word count: "
                  +:+ Py.str_of_Z abstract_words +:+ "/" +:+ Py.str_of_Z max_words];
           v_missing_required := v_missing_required vr;
           v_unexpected_sections := v_unexpected_sections vr |}
      else vr
  | _, _ => vr
  end.

Definition _validate_sections (sections : odict string string)
    (template_config : TemplateConfig) : ValidationResult :=
  let required_sections := tc_required_sections template_config in
  let allowed_sections := tc_sections template_config in
  let vr := fold_left (check_required sections) required_sections validation_init in
  let vr := fold_left (check_unexpected allowed_sections) (od_keys sections) vr in
  check_abstract sections template_config vr.

(** *** Annotation *)

Inductive citation : Type :=
| NumericCitation (text : string) (numbers : list Z) (position : nat * nat)
| AuthorYearCitation (text : string) (author : string) (year : Z) (position : nat * nat).

Inductive equation_type : Type := inline | display.

Record equation : Type := {
  e_type : equation_type;
  e_content : string;
  e_position : nat * nat;
  e_id : string
}.

Inductive reference_type : Type := figure | table.

Record reference : Type := {
  r_type : reference_type;
  r_number : Z;
  r_text : string;
  r_position : nat * nat
}.

Record FormattedSection : Type := {
  s_content : string;
  s_word_count : nat;
  s_citations : list citation;
  s_equations : list equation;
  s_references : list reference;
  s_formatting_applied : bool
}.

(** The three substitutions re-emit each match between the markers it was
    found in. *)
Definition _apply_text_formatting (content : string) : string :=
  let content :=
    Re.sub (Re.Cat [Re.Lit "**"; Re.Grp 1 (Re.Plus (cls_not "*")); Re.Lit "**"])
           [Re.RLit "**"; Re.RGroup 1; Re.RLit "**"] content in
  let content :=
    Re.sub (Re.Cat [Re.Chr "*"; Re.Grp 1 (Re.Plus (cls_not "*")); Re.Chr "*"])
           [Re.RLit "*"; Re.RGroup 1; Re.RLit "*"] content in
  let content :=
    Re.sub (Re.Cat [Re.Chr "_"; Re.Grp 1 (Re.Plus (cls_not "_")); Re.Chr "_"])
           [Re.RLit "_"; Re.RGroup 1; Re.RLit "_"] content in
  content.

Definition _extract_citations (self : TemplateProcessor) (content : string)
    : raises (list citation) :=
  let numeric_matches := Re.finditer (citations_numeric (formatting_rules self)) content in
  let! numeric :=
    for_each (fun m =>
                let! numbers :=
                  for_each (fun n => Py.int (Py.strip n))
                           (Py.split "," (Re.group content m 1)) in
                ret (NumericCitation (Re.group0 content m) numbers (Re.span m)))
             numeric_matches in
  let author_year_matches :=
    Re.finditer (citations_author_year (formatting_rules self)) content in
  let! author_year :=
    for_each (fun m =>
                let! year := Py.int (Re.group content m 2) in
                ret (AuthorYearCitation (Re.group0 content m) (Re.group content m 1)
                                        year (Re.span m)))
             author_year_matches in
  ret (numeric ++ author_year).

Definition _extract_equations (self : TemplateProcessor) (content : string)
    : list equation :=
  let inline_matches := Re.finditer (equations_inline (formatting_rules self)) content in
  let display_matches := Re.finditer (equations_display (formatting_rules self)) content in
  imap (fun i m =>
          {| e_type := inline; e_content := Re.group content m 1;
             e_position := Re.span m;
             e_id := "eq_inline_" +:+ Py.str_of_nat (i + 1) |})
       inline_matches
  ++
  imap (fun i m =>
          {| e_type := display; e_content := Re.group content m 1;
             e_position := Re.span m;
             e_id := "eq_display_" +:+ Py.str_of_nat (i + 1) |})
       display_matches.

Definition _extract_references (self : TemplateProcessor) (content : string)
    : raises (list reference) :=
  let fig_matches := Re.finditer (figure_ref (formatting_rules self)) content in
  let! figures :=
    for_each (fun m =>
                let! number := Py.int (Re.group content m 1) in
                ret {| r_type := figure; r_number := number;
                       r_text := Re.group0 content m; r_position := Re.span m |})
             fig_matches in
  let table_matches := Re.finditer (table_ref (formatting_rules self)) content in
  let! tables :=
    for_each (fun m =>
                let! number := Py.int (Re.group content m 1) in
                ret {| r_type := table; r_number := number;
                       r_text := Re.group0 content m; r_position := Re.span m |})
             table_matches in
  ret (figures ++ tables).

(** The body of the loop of [_apply_formatting] for one section. *)
Definition format_section (self : TemplateProcessor) (content : string)
    : raises FormattedSection :=
  let formatted_content := _apply_text_formatting content in
  let! citations := _extract_citations self formatted_content in
  let equations := _extract_equations self formatted_content in
  let! references := _extract_references self formatted_content in
  ret {| s_content := formatted_content;
         s_word_count := length (Py.split_ws formatted_content);
         s_citations := citations;
         s_equations := equations;
         s_references := references;
         s_formatting_applied := true |}.

Fixpoint apply_formatting_loop (self : TemplateProcessor)
    (items : list (string * string))
    (formatted_sections : odict string FormattedSection)
    : raises (odict string FormattedSection) :=
  match items with
  | [] => ret formatted_sections
  | (section_name, content) :: items' =>
      let! fs := format_section self content in
      apply_formatting_loop self items' (od_set section_name fs formatted_sections)
  end.

Definition _apply_formatting (self : TemplateProcessor)
    (sections : odict string string) (style_name : string)
    : raises (odict string FormattedSection) :=
  apply_formatting_loop self sections [].

(** *** Table of contents, citation summary, statistics *)

Record TocEntry : Type := {
  toc_section : string;
  toc_title : string;
  toc_page : nat;
  toc_word_count : nat
}.

(** The loop over [enumerate(section_order)], from index [i] on. *)
Fixpoint toc_loop (sections : odict string FormattedSection) (i : nat)
    (section_order : list string) : list TocEntry :=
  match section_order with
  | [] => []
  | section_name :: rest =>
      match od_get section_name sections with
      | Some sec =>
          {| toc_section := section_name;
             toc_title := Py.title (Py.replace "_" " " section_name);
             toc_page := i + 1;
             toc_word_count := s_word_count sec |}
            :: toc_loop sections (S i) rest
      | None => toc_loop sections (S i) rest
      end
  end.

Definition _generate_table_of_contents (sections : odict string FormattedSection)
    (template_config : TemplateConfig) : list TocEntry :=
  toc_loop sections 0 (tc_sections template_config).

(** Keys of [unique_citations]: a reference number or an author_year text. *)
Inductive citation_key : Type :=
| KNum (num : Z)
| KStr (key : string).

#[global] Instance citation_key_eq_dec : EqDecision citation_key.
Proof. solve_decision. Defined.

(** One round of the loop over [all_citations]. *)
Definition add_citation (unique_citations : odict citation_key citation)
    (c : citation) : odict citation_key citation :=
  match c with
  | NumericCitation _ numbers _ =>
      fold_left (fun u num => od_set (KNum num) c u) numbers unique_citations
  | AuthorYearCitation _ author year _ =>
      od_set (KStr (author +:+ "_" +:+ Py.str_of_Z year)) c unique_citations
  end.

Definition all_citations_of (sections : odict string FormattedSection) : list citation :=
  concat (s_citations <$> od_values sections).

Definition unique_citations_of (all_citations : list citation)
    : odict citation_key citation :=
  fold_left add_citation all_citations [].

Record CitationInfo : Type := {
  ci_total_citations : nat;
  ci_unique_citations : nat;
  ci_citation_style : string;
  ci_citations : list citation
}.

Definition _process_citations (sections : odict string FormattedSection)
    (style_name : string) : CitationInfo :=
  let all_citations := all_citations_of sections in
  let unique_citations := unique_citations_of all_citations in
  {| ci_total_citations := length all_citations;
     ci_unique_citations := length unique_citations;
     ci_citation_style := style_name;
     ci_citations := od_values unique_citations |}.

Record Statistics : Type := {
  total_words : nat;
  total_sections : nat;
  total_citations : nat;
  total_equations : nat;
  total_references : nat;
  section_breakdown : odict string nat
}.

Definition _calculate_content_statistics (sections : odict string FormattedSection)
    : Statistics :=
  {| total_words := sum_list (s_word_count <$> od_values sections);
     total_sections := length sections;
     total_citations := sum_list ((fun sec => length (s_citations sec)) <$> od_values sections);
     total_equations := sum_list ((fun sec => length (s_equations sec)) <$> od_values sections);
     total_references := sum_list ((fun sec => length (s_references sec)) <$> od_values sections);
     section_breakdown := (fun kv => (kv.1, s_word_count kv.2)) <$> sections |}.

(** *** The request *)

Record Metadata : Type := {
  md_timestamp : string;
  md_processing_id : string;
  md_template_config : TemplateConfig
}.

Record ProcessingResult : Type := {
  pr_template_type : string;
  pr_style_name : string;
  pr_sections : odict string FormattedSection;
  pr_table_of_contents : list TocEntry;
  pr_citations : CitationInfo;
  pr_validation : ValidationResult;
  pr_statistics : Statistics;
  pr_metadata : Metadata
}.

(** What the request reads from outside: the clock behind [_get_timestamp]
    and the identifier drawn by [_generate_processing_id]. *)
Record environment : Type := {
  _get_timestamp : string;
  _generate_processing_id : string
}.

Definition UnsupportedTemplate (template_type : string) : Py.exn :=
  Py.ValueError ("Unsupported template type: " +:+ template_type).

Definition process_content (self : TemplateProcessor) (env : environment)
    (content style_name template_type : string) : raises ProcessingResult :=
  match templates self !! template_type with
  | None => raise (UnsupportedTemplate template_type)
  | Some template_config =>
      let sections := _parse_content_sections content in
      let validation_result := _validate_sections sections template_config in
      let! formatted_sections := _apply_formatting self sections style_name in
      let toc := _generate_table_of_contents formatted_sections template_config in
      let citation_info := _process_citations formatted_sections style_name in
      let statistics := _calculate_content_statistics formatted_sections in
      ret {| pr_template_type := template_type;
             pr_style_name := style_name;
             pr_sections := formatted_sections;
             pr_table_of_contents := toc;
             pr_citations := citation_info;
             pr_validation := validation_result;
             pr_statistics := statistics;
             pr_metadata :=
               {| md_timestamp := _get_timestamp env;
                  md_processing_id := _generate_processing_id env;
                  md_template_config := template_config |} |}
  end.

(** ** The registry as shared objects

    [get_template] hands out objects, so what a caller can do to the
    registry through them depends on which objects are shared. Here the
    dictionaries and lists of [self.templates] live in a store of objects
    addressed by location, and a value is a scalar or a reference. *)

Definition loc : Type := nat.

Inductive value : Type :=
| VStr (s : string)
| VInt (z : Z)
| VBool (b : bool)
| VRef (l : loc).

Inductive object : Type :=
| OList (items : list value)
| ODict (entries : odict string value).

Record heap : Type := Heap {
  objs : gmap loc object;
  next : loc
}.

Definition alloc (o : object) (h : heap) : loc * heap :=
  (next h, Heap (<[next h := o]> (objs h)) (S (next h))).

(** [d[k]] and [d[k] = v] on the dictionary at [d]; [l.append(v)] on the
    list at [l]. On an object of the other kind they do nothing here. *)
Definition dict_getitem (h : heap) (d : loc) (k : string) : option value :=
  match objs h !! d with
  | Some (ODict entries) => od_get k entries
  | _ => None
  end.

Definition dict_setitem (d : loc) (k : string) (v : value) (h : heap) : heap :=
  match objs h !! d with
  | Some (ODict entries) => Heap (<[d := ODict (od_set k v entries)]> (objs h)) (next h)
  | _ => h
  end.

Definition list_append (l : loc) (v : value) (h : heap) : heap :=
  match objs h !! l with
  | Some (OList items) => Heap (<[l := OList (items ++ [v])]> (objs h)) (next h)
  | _ => h
  end.

(** Building one descriptor of the dictionary literal: its two lists are
    objects of their own. *)
Definition alloc_config (tc : TemplateConfig) (h : heap) : loc * heap :=
  let '(sections, h) := alloc (OList (VStr <$> tc_sections tc)) h in
  let '(required, h) := alloc (OList (VStr <$> tc_required_sections tc)) h in
  alloc (ODict ([("name", VStr (tc_name tc));
                 ("sections", VRef sections);
                 ("required_sections", VRef required);
                 ("section_order", VBool (tc_section_order tc))]
                ++ match tc_max_abstract_words tc with
                   | Some n => [("max_abstract_words", VInt n)]
                   | None => []
                   end
                ++ [("reference_format", VStr (tc_reference_format tc))])) h.

Fixpoint alloc_table (table : list (string * TemplateConfig)) (h : heap)
    : odict string value * heap :=
  match table with
  | [] => ([], h)
  | (name, tc) :: table' =>
      let '(d, h) := alloc_config tc h in
      let '(entries, h) := alloc_table table' h in
      ((name, VRef d) :: entries, h)
  end.

(** The store after [__init__], with the location of [self.templates]. *)
Definition init_store : loc * heap :=
  let '(entries, h) := alloc_table template_table (Heap ∅ 0) in
  alloc (ODict entries) h.

Definition self_templates : loc := init_store.1.
Definition init_heap : heap := init_store.2.

(** Reading a descriptor back out of the store. *)
Definition as_str (v : value) : option string :=
  match v with VStr s => Some s | _ => None end.

Definition read_str_list (h : heap) (v : option value) : list string :=
  match v with
  | Some (VRef l) =>
      match objs h !! l with
      | Some (OList items) => omap as_str items
      | _ => []
      end
  | _ => []
  end.

Definition read_config (h : heap) (d : loc) : option TemplateConfig :=
  match objs h !! d with
  | Some (ODict entries) =>
      Some {| tc_name := default EmptyString (od_get "name" entries ≫= as_str);
              tc_sections := read_str_list h (od_get "sections" entries);
              tc_required_sections := read_str_list h (od_get "required_sections" entries);
              tc_section_order :=
                match od_get "section_order" entries with
                | Some (VBool b) => b
                | _ => false
                end;
              tc_max_abstract_words :=
                match od_get "max_abstract_words" entries with
                | Some (VInt n) => Some n
                | _ => None
                end;
              tc_reference_format :=
                default EmptyString (od_get "reference_format" entries ≫= as_str) |}
  | _ => None
  end.

(** [self.templates[name]] as a later lookup sees it. *)
Definition stored_config (h : heap) (template_name : string) : option TemplateConfig :=
  match dict_getitem h self_templates template_name with
  | Some (VRef d) => read_config h d
  | _ => None
  end.

(** [get_template]: [dict.copy()] makes a new dictionary holding the same
    values, so a value that is a reference still refers to the object the
    registry refers to; then the [metadata] entry is set on the copy. *)
Definition get_template (env : environment) (template_name : string) (h : heap)
    : option loc * heap :=
  match dict_getitem h self_templates template_name with
  | Some (VRef d) =>
      match objs h !! d with
      | Some (ODict entries) =>
          let '(template, h) := alloc (ODict entries) h in
          let '(metadata, h) :=
            alloc (ODict [("timestamp", VStr (_get_timestamp env));
                          ("template_name", VStr template_name)]) h in
          (Some template, dict_setitem template "metadata" (VRef metadata) h)
      | _ => (None, h)
      end
  | _ => (None, h)
  end.

(** What a caller may do to the dictionary it was handed. *)
Inductive mutation : Type :=
| SetKey (k : string) (v : value)
| AppendTo (k : string) (v : value).

(** [t[k] = v] and [t[k].append(v)] on the dictionary at [t]. *)
Definition mutate (t : loc) (m : mutation) (h : heap) : heap :=
  match m with
  | SetKey k v => dict_setitem t k v h
  | AppendTo k v =>
      match dict_getitem h t k with
      | Some (VRef l) => list_append l v h
      | _ => h
      end
  end.

(** ** Vocabulary of the properties *)

(** A string that is not empty and has no character of [p] at either end. *)
Definition trimmed (p : ascii → bool) (s : string) : Prop :=
  Py.is_empty s = false ∧ Py.lstrip_by p s = s ∧ Py.rstrip_by p s = s.

(** The warning about the length of the abstract, if there is one. *)
Definition abstract_warning (sections : odict string string) (tc : TemplateConfig)
    : list string :=
  match od_get "abstract" sections, tc_max_abstract_words tc with
  | Some abstract, Some max_words =>
      let abstract_words := Z.of_nat (length (Py.split_ws abstract)) in
      if (abstract_words >? max_words)%Z then
        ["Abstract exceeds maximum word count: "
           +:+ Py.str_of_Z abstract_words +:+ "/" +:+ Py.str_of_Z max_words]
      else []
  | _, _ => []
  end.

(** A header line: its first character after stripping is the marker. *)
Definition is_header (line : string) : bool := Py.startswith "#" (Py.strip line).

(** The lines that reach a section body: stripped and not empty. *)
Definition body_lines (lines : list string) : list string :=
  filter (λ l, Py.is_empty l = false) (Py.strip <$> lines).

(** The text of a header line as the segmenter reads it. *)
Definition header_text (line : string) : string :=
  Py.lower (Py.strip (Py.lstrip_char "#" (Py.strip line))).

(** The section a header line opens. *)
Definition header_key (line : string) : string :=
  _normalize_section_name (header_text line).

Definition has_char (a : ascii) (s : string) : bool :=
  negb (Py.is_empty (Py.lstrip_by (λ c, negb (Ascii.eqb c a)) s)).

(** Once a body is stored under [key] and another section is open, lines
    that open no section named [key] leave that body alone. *)
Definition settled (key body : string) (st : parse_state) : Prop :=
  od_get key (ps_sections st) = Some body ∧ current_section st ≠ key.

(** No line of [lines] is a header opening the section [key]. *)
Definition no_header_for (key : string) (lines : list string) : bool :=
  forallb (λ l, negb (is_header l && bool_decide (header_key l = key))) lines.

(** The words a pattern denotes, groups ignored. *)
Inductive matches : Re.regex → string → Prop :=
| M_Eps : matches Re.Eps EmptyString
| M_Chr a : matches (Re.Chr a) (String a EmptyString)
| M_Cls p a : p a = true → matches (Re.Cls p) (String a EmptyString)
| M_Seq r1 r2 w1 w2 :
    matches r1 w1 → matches r2 w2 → matches (Re.Seq r1 r2) (w1 +:+ w2)
| M_AltL r1 r2 w : matches r1 w → matches (Re.Alt r1 r2) w
| M_AltR r1 r2 w : matches r2 w → matches (Re.Alt r1 r2) w
| M_Star0 r : matches (Re.Star r) EmptyString
| M_StarS r w1 w2 :
    matches r w1 → matches (Re.Star r) w2 → matches (Re.Star r) (w1 +:+ w2)
| M_Grp n r w : matches r w → matches (Re.Grp n r) w.

(** [G n w]: what is known of the text [w] of group [n]. A pattern respects
    [G] when each of its groups only ever holds such a text. *)
Fixpoint groups_ok (G : nat → string → Prop) (r : Re.regex) : Prop :=
  match r with
  | Re.Eps | Re.Chr _ | Re.Cls _ => True
  | Re.Seq r1 r2 | Re.Alt r1 r2 => groups_ok G r1 ∧ groups_ok G r2
  | Re.Star r1 => groups_ok G r1
  | Re.Grp n r1 => groups_ok G r1 ∧ ∀ w, matches r1 w → G n w
  end.

(** The groups every match of the pattern binds. *)
Fixpoint defines (r : Re.regex) (n : nat) : bool :=
  match r with
  | Re.Eps | Re.Chr _ | Re.Cls _ | Re.Star _ => false
  | Re.Seq r1 r2 => defines r1 n || defines r2 n
  | Re.Alt r1 r2 => defines r1 n && defines r2 n
  | Re.Grp m r1 => (n =? m) || defines r1 n
  end.

(** Every binding delimits a text of [whole] that [G] accepts. *)
Definition caps_ok (G : nat → string → Prop) (whole : string) (c : Re.captures) : Prop :=
  Forall (λ b, G b.1 (Py.slice b.2.1 b.2.2 whole)) c.

(** What a successful run of the matcher owes: a prefix [w] of the text in
    the language of the pattern, the rest of the pattern run right after
    it, groups in order, and the groups of the pattern bound. *)
Definition sound_for (G : nat → string → Prop) (whole : string) (r : Re.regex)
    (body : nat → string → Re.captures → Re.cont → option Re.outcome) : Prop :=
  ∀ pos s c k o pre,
    whole = pre +:+ s → String.length pre = pos → caps_ok G whole c →
    body pos s c k = Some o →
    ∃ w s' c',
      s = w +:+ s' ∧ matches r w ∧ caps_ok G whole c'
      ∧ (∀ n, defines r n = true ∨ is_Some (Re.cap_get n c) → is_Some (Re.cap_get n c'))
      ∧ k (pos + String.length w) s' c' = Some o.

(** A match object that stands for a real occurrence: its span delimits a
    word of the pattern inside [whole], and its groups are bound and hold
    texts that [G] accepts. *)
Definition match_ok (G : nat → string → Prop) (r : Re.regex) (whole : string)
    (m : Re.rmatch_obj) : Prop :=
  ∃ pre w post,
    whole = pre +:+ w +:+ post
    ∧ Re.m_start m = String.length pre
    ∧ Re.m_end m = String.length pre + String.length w
    ∧ matches r w
    ∧ caps_ok G whole (Re.m_caps m)
    ∧ ∀ n, defines r n = true → is_Some (Re.cap_get n (Re.m_caps m)).

Fixpoint all_chars (p : ascii → bool) (s : string) : bool :=
  match s with
  | EmptyString => true
  | String c s' => p c && all_chars p s'
  end.

(** One number of a numeric citation: blanks, then digits. *)
Definition number_token (t : string) : Prop :=
  ∃ ws d, t = ws +:+ d ∧ all_chars Py.isspace ws = true
          ∧ all_chars Py.isdigit d = true ∧ Py.is_empty d = false.

(** The further numbers of a numeric citation: comma, blanks, digits. *)
Definition more_numbers : Re.regex :=
  Re.Star (Re.Seq (Re.Chr ",") (Re.Seq (Re.Star cls_space) (Re.Plus cls_digit))).

(** Group [n0] holds a word of [r0]; nothing is said of the other groups. *)
Definition group_in (n0 : nat) (r0 : Re.regex) : nat → string → Prop :=
  λ n w, n = n0 → matches r0 w.


Definition is_inline (e : equation) : bool :=
  match e_type e with inline => true | display => false end.

Definition is_display (e : equation) : bool :=
  match e_type e with inline => false | display => true end.

(** The length of the longest prefix of [s] made of characters of [p]. *)
Fixpoint span_len (p : ascii → bool) (s : string) : nat :=
  match s with
  | EmptyString => 0
  | String c s' => if p c then S (span_len p s') else 0
  end.

(** A continuation that fails on every text starting with a character of
    [p]: after a greedy run of [p], giving a character back cannot help. *)
Definition rejects (p : ascii → bool) (k : Re.cont) : Prop :=
  ∀ pos b s c, p b = true → k pos (String b s) c = None.

Definition not_dollar (c : ascii) : bool := negb (Ascii.eqb c "$").



Definition dollar : string := String "$" EmptyString.



(** A document given line by line. *)
Definition document (lines : list string) : string :=
  Py.join (String Py.nl EmptyString) lines.

(** Two continuations that agree wherever the matcher can get to from
    offset [pos] with text [s] left. *)
Definition agree_from (pos : nat) (s : string) (k1 k2 : Re.cont) : Prop :=
  ∀ pos' s' c',
    pos' + String.length s' = pos + String.length s → pos ≤ pos' →
    k1 pos' s' c' = k2 pos' s' c'.

(** A continuation that fails wherever the matcher can get to. *)
Definition fails_from (pos : nat) (s : string) (k : Re.cont) : Prop :=
  ∀ pos' s' c',
    pos' + String.length s' = pos + String.length s → pos ≤ pos' →
    k pos' s' c' = None.

Definition other_than (a : ascii) : ascii → bool := λ c, negb (Ascii.eqb c a).

(** A line of a section body: not empty, no whitespace at either end, no
    newline inside. *)
Definition body_line (l : string) : Prop :=
  trimmed Py.isspace l ∧ all_chars (other_than Py.nl) l = true.

(** The state of the segmenter between two lines of a document. *)
Definition well_segmented (st : parse_state) : Prop :=
  NoDup (od_keys (ps_sections st))
  ∧ Forall (λ kv, has_char " " kv.1 = false
                  ∧ Forall (trimmed Py.isspace) (Py.split Py.nl kv.2))
           (ps_sections st)
  ∧ has_char " " (current_section st) = false
  ∧ Forall body_line (current_content st).

(** [m1] ends before [m2] starts. *)
Definition ends_before (m1 m2 : Re.rmatch_obj) : Prop := Re.m_end m1 ≤ Re.m_start m2.

(** One span ends before the other starts. *)
Definition span_before (p1 p2 : nat * nat) : Prop := p1.2 ≤ p2.1.

(** [c['position']] *)
Definition citation_position (c : citation) : nat * nat :=
  match c with
  | NumericCitation _ _ position => position
  | AuthorYearCitation _ _ _ position => position
  end.

(** The first character of [s], if there is one, satisfies [p]. *)
Definition first_is (p : ascii → bool) (s : string) : bool :=
  match s with
  | String b _ => p b
  | EmptyString => false
  end.

(** The match object of a reference at [pre]: the word, blanks [ws] and
    the digits [d], which are group 1. *)
Definition reference_target (word pre ws d : string) : Re.rmatch_obj :=
  Re.MatchObj (String.length pre)
              (String.length pre + String.length (word +:+ ws +:+ d))
              [(1, (String.length (pre +:+ word +:+ ws),
                    String.length (pre +:+ word +:+ ws) + String.length d))].

(** A reference in [content]: the word, at least one blank, and a run of
    digits that goes as far as the digits go. *)
Definition reference_occurrence (word content : string) (m : Re.rmatch_obj)
    (ws d : string) : Prop :=
  ∃ pre post,
    content = pre +:+ (word +:+ ws +:+ d) +:+ post
    ∧ all_chars Py.isspace ws = true ∧ Py.is_empty ws = false
    ∧ all_chars Py.isdigit d = true ∧ Py.is_empty d = false
    ∧ first_is Py.isdigit post = false
    ∧ m = reference_target word pre ws d.

(** What a reference of kind [ty] spelled [word] holds. *)
Definition reference_ok (ty : reference_type) (word content : string) (r : reference)
    : Prop :=
  r_type r = ty
  ∧ ∃ m ws d,
      reference_occurrence word content m ws d
      ∧ r_position r = Re.span m
      ∧ r_text r = word +:+ ws +:+ d
      ∧ Py.int d = inr (r_number r)
      ∧ (0 ≤ r_number r)%Z.

(** The keys under which the loop of [_process_citations] files a
    citation: each of its numbers, or author and year joined by [_]. *)
Definition citation_keys (c : citation) : list citation_key :=
  match c with
  | NumericCitation _ numbers _ => KNum <$> numbers
  | AuthorYearCitation _ author year _ => [KStr (author +:+ "_" +:+ Py.str_of_Z year)]
  end.

(** The registry as the program keeps it: [self.templates] is a
    dictionary whose values are dictionaries of the store. *)
Definition registry_ok (h : heap) : Prop :=
  self_templates < next h
  ∧ ∃ registry,
      objs h !! self_templates = Some (ODict registry)
      ∧ Forall (λ kv, ∃ d entries,
                  kv.2 = VRef d ∧ d < next h ∧ objs h !! d = Some (ODict entries))
               registry.

(** * Properties *)

(** ** Strings *)

Lemma app_cons (c : ascii) (s t : string) : String c s +:+ t = String c (s +:+ t).
Proof. reflexivity. Qed.

Lemma app_empty_l (s : string) : EmptyString +:+ s = s.
Proof. reflexivity. Qed.

Lemma app_empty_r (s : string) : s +:+ EmptyString = s.
Proof. induction s as [|c s IH]; [done|]. by rewrite app_cons, IH. Qed.

Lemma app_assoc_str (s t u : string) : (s +:+ t) +:+ u = s +:+ (t +:+ u).
Proof. induction s as [|c s IH]; [done|]. by rewrite !app_cons, IH. Qed.

Lemma length_app_str (s t : string) :
  String.length (s +:+ t) = String.length s + String.length t.
Proof. induction s as [|c s IH]; [done|]. rewrite app_cons. simpl. by rewrite IH. Qed.


Lemma is_empty_app (s t : string) :
  Py.is_empty (s +:+ t) = Py.is_empty s && Py.is_empty t.
Proof. by destruct s. Qed.

Lemma lstrip_by_app (p : ascii → bool) (s t : string) :
  Py.is_empty s = false → Py.lstrip_by p s = s → Py.lstrip_by p (s +:+ t) = s +:+ t.
Proof.
  destruct s as [|c s]; [done|]. intros _. rewrite app_cons. simpl.
  destruct (p c) eqn:Hc; [|done].
  intros H. apply (f_equal String.length) in H. simpl in H.
  assert (Hle : ∀ u, String.length (Py.lstrip_by p u) ≤ String.length u).
  { induction u as [|d u IH]; simpl; [lia|]. destruct (p d); simpl; lia. }
  specialize (Hle s). lia.
Qed.

Lemma rstrip_by_app (p : ascii → bool) (s t : string) :
  Py.is_empty t = false → Py.rstrip_by p t = t → Py.rstrip_by p (s +:+ t) = s +:+ t.
Proof.
  intros Hne Ht. induction s as [|c s IH]; [done|].
  rewrite app_cons. simpl. rewrite IH, is_empty_app, Hne.
  by rewrite !andb_false_r.
Qed.

Lemma rstrip_by_idem (p : ascii → bool) (s : string) :
  Py.rstrip_by p (Py.rstrip_by p s) = Py.rstrip_by p s.
Proof.
  induction s as [|c s IH]; [done|]. simpl.
  destruct (p c && Py.is_empty (Py.rstrip_by p s)) eqn:H; [done|].
  simpl. by rewrite IH, H.
Qed.

Lemma lstrip_by_rstrip (p : ascii → bool) (s : string) :
  Py.lstrip_by p s = s → Py.lstrip_by p (Py.rstrip_by p s) = Py.rstrip_by p s.
Proof.
  destruct s as [|c s]; [done|]. simpl.
  destruct (p c) eqn:Hc.
  - intros H. apply (f_equal String.length) in H. simpl in H.
    assert (Hle : ∀ u, String.length (Py.lstrip_by p u) ≤ String.length u).
    { induction u as [|d u IH]; simpl; [lia|]. destruct (p d); simpl; lia. }
    specialize (Hle s). lia.
  - intros _. simpl. by rewrite Hc.
Qed.

Lemma lstrip_by_idem (p : ascii → bool) (s : string) :
  Py.lstrip_by p (Py.lstrip_by p s) = Py.lstrip_by p s.
Proof.
  induction s as [|c s IH]; [done|]. simpl.
  destruct (p c) eqn:Hc; [done|]. simpl. by rewrite Hc.
Qed.

(** A stripped line is empty or trimmed. *)
Lemma strip_trimmed (s : string) :
  Py.is_empty (Py.strip s) = false → trimmed Py.isspace (Py.strip s).
Proof.
  intros Hne. split; [done|]. unfold Py.strip. split.
  - apply lstrip_by_rstrip, lstrip_by_idem.
  - apply rstrip_by_idem.
Qed.

Lemma trimmed_app (p : ascii → bool) (s m t : string) :
  trimmed p s → trimmed p t → trimmed p (s +:+ m +:+ t).
Proof.
  intros (Hs & Hls & _) (Ht & _ & Hrt). split; [|split].
  - rewrite is_empty_app, Hs. done.
  - by apply lstrip_by_app.
  - rewrite <- app_assoc_str. by apply rstrip_by_app.
Qed.

Lemma trimmed_join (p : ascii → bool) (sep : string) (parts : list string) :
  parts ≠ [] → Forall (trimmed p) parts → trimmed p (Py.join sep parts).
Proof.
  induction parts as [|a parts IH]; [done|]. intros _ Hall.
  apply Forall_cons in Hall as [Ha Hall].
  destruct parts as [|b parts]; [done|].
  change (Py.join sep (a :: b :: parts)) with (a +:+ sep +:+ Py.join sep (b :: parts)).
  apply trimmed_app; [done|]. by apply IH.
Qed.

Lemma strip_of_trimmed (s : string) : trimmed Py.isspace s → Py.strip s = s.
Proof. intros (_ & Hl & Hr). unfold Py.strip. by rewrite Hl, Hr. Qed.

(** ** Ordered dictionaries *)

Section OrderedDictFacts.
Context {K V : Type} `{EqDecision K}.
Implicit Types (d : odict K V) (k : K) (v : V).

Lemma od_get_set_eq k v d : od_get k (od_set k v d) = Some v.
Proof.
  induction d as [|[k' v'] d IH]; simpl; repeat (case_decide; simpl); congruence.
Qed.

Lemma od_get_set_ne k k' v d : k ≠ k' → od_get k' (od_set k v d) = od_get k' d.
Proof.
  intros Hne.
  induction d as [|[k0 v0] d IH]; simpl; repeat (case_decide; simpl); congruence.
Qed.

Lemma od_set_keys_mem k v d :
  is_Some (od_get k d) → od_keys (od_set k v d) = od_keys d.
Proof.
  unfold od_keys. induction d as [|[k0 v0] d IH]; cbn [od_get od_set].
  - by intros [? ?].
  - case_decide; [done|]. intros Hs. rewrite !fmap_cons. f_equal. by apply IH.
Qed.

Lemma od_set_keys_new k v d :
  od_get k d = None → od_keys (od_set k v d) = od_keys d ++ [k].
Proof.
  unfold od_keys. induction d as [|[k0 v0] d IH]; cbn [od_get od_set]; [done|].
  case_decide; [done|]. intros Hs. rewrite !fmap_cons. simpl. f_equal. by apply IH.
Qed.


Lemma od_mem_true k d : od_mem k d = true ↔ is_Some (od_get k d).
Proof. unfold od_mem. by rewrite bool_decide_eq_true. Qed.

Lemma od_mem_false k d : od_mem k d = false ↔ od_get k d = None.
Proof. unfold od_mem. rewrite bool_decide_eq_false. by rewrite eq_None_not_Some. Qed.

End OrderedDictFacts.
(** ** Validation *)

Lemma check_required_fold sections required vr :
  let missing := filter (λ r, od_get r sections = None) required in
  fold_left (check_required sections) required vr =
    {| v_valid := v_valid vr && is_nil missing;
       v_errors := v_errors vr ++ ((λ r, "Missing required section: " +:+ r) <$> missing);
       v_warnings := v_warnings vr;
       v_missing_required := v_missing_required vr ++ missing;
       v_unexpected_sections := v_unexpected_sections vr |}.
Proof.
  revert vr. induction required as [|r required IH]; intros vr; simpl.
  - destruct vr; simpl. by rewrite andb_true_r, !app_nil_r.
  - rewrite IH. unfold check_required.
    destruct (od_mem r sections) eqn:Hmem.
    + apply od_mem_true in Hmem as [v Hv].
      rewrite filter_cons_False; [done|]. by rewrite Hv.
    + apply od_mem_false in Hmem.
      rewrite filter_cons_True by done. simpl.
      rewrite andb_false_r. by rewrite <- !app_assoc.
Qed.

Lemma check_unexpected_fold allowed keys vr :
  let unexpected := filter (λ k, k ∉ allowed) keys in
  fold_left (check_unexpected allowed) keys vr =
    {| v_valid := v_valid vr;
       v_errors := v_errors vr;
       v_warnings := v_warnings vr ++ ((λ k, "Unexpected section: " +:+ k) <$> unexpected);
       v_missing_required := v_missing_required vr;
       v_unexpected_sections := v_unexpected_sections vr ++ unexpected |}.
Proof.
  revert vr. induction keys as [|k keys IH]; intros vr; simpl.
  - destruct vr; simpl. by rewrite !app_nil_r.
  - rewrite IH. unfold check_unexpected. case_bool_decide.
    + rewrite filter_cons_False; [done|]. tauto.
    + rewrite filter_cons_True by done. simpl. by rewrite <- !app_assoc.
Qed.

Lemma check_abstract_spec sections tc vr :
  check_abstract sections tc vr =
    {| v_valid := v_valid vr;
       v_errors := v_errors vr;
       v_warnings := v_warnings vr ++ abstract_warning sections tc;
       v_missing_required := v_missing_required vr;
       v_unexpected_sections := v_unexpected_sections vr |}.
Proof.
  unfold check_abstract, abstract_warning.
  destruct (od_get "abstract" sections), (tc_max_abstract_words tc);
    try destruct (_ >? _)%Z; destruct vr; simpl; by rewrite ?app_nil_r.
Qed.

Lemma validate_sections_spec sections tc :
  let missing := filter (λ r, od_get r sections = None) (tc_required_sections tc) in
  let unexpected := filter (λ k, k ∉ tc_sections tc) (od_keys sections) in
  _validate_sections sections tc =
    {| v_valid := is_nil missing;
       v_errors := (λ r, "Missing required section: " +:+ r) <$> missing;
       v_warnings := ((λ k, "Unexpected section: " +:+ k) <$> unexpected)
                       ++ abstract_warning sections tc;
       v_missing_required := missing;
       v_unexpected_sections := unexpected |}.
Proof.
  unfold _validate_sections.
  by rewrite check_abstract_spec, check_unexpected_fold, check_required_fold.
Qed.

(** C2. The report is invalid exactly when a required section is missing
    from the map; the missing names, in order, are [missing_required] and
    each has its error; the sections outside the template's list and the
    length of the abstract only show in the warnings. *)
Theorem C2_validation_report (sections : odict string string) (tc : TemplateConfig) :
  let vr := _validate_sections sections tc in
  (v_valid vr = false ↔ ∃ r, r ∈ tc_required_sections tc ∧ od_get r sections = None)
  ∧ v_missing_required vr =
      filter (λ r, od_get r sections = None) (tc_required_sections tc)
  ∧ v_errors vr = (λ r, "Missing required section: " +:+ r) <$> v_missing_required vr
  ∧ v_unexpected_sections vr = filter (λ k, k ∉ tc_sections tc) (od_keys sections)
  ∧ v_warnings vr =
      ((λ k, "Unexpected section: " +:+ k) <$> v_unexpected_sections vr)
        ++ abstract_warning sections tc.
Proof.
  cbv zeta. rewrite validate_sections_spec. simpl.
  split; [|done].
  split.
  - intros Hnil.
    destruct (filter _ _) as [|r rest] eqn:Hf; [done|].
    exists r.
    assert (Hr : r ∈ filter (λ r, od_get r sections = None) (tc_required_sections tc)).
    { rewrite Hf. left. }
    apply list_elem_of_filter in Hr as [? ?]. done.
  - intros (r & Hin & Hnone).
    assert (Hr : r ∈ filter (λ r, od_get r sections = None) (tc_required_sections tc)).
    { by apply list_elem_of_filter. }
    destruct (filter _ _); [by apply elem_of_nil in Hr|done].
Qed.

(** ** Segmentation *)

Lemma parse_line_body (st : parse_state) (line : string) :
  is_header line = false →
  parse_line st line =
    ParseState (ps_sections st) (current_section st)
               (current_content st ++ body_lines [line]).
Proof.
  unfold is_header, parse_line, body_lines. intros ->. simpl.
  destruct (Py.is_empty (Py.strip line)) eqn:He.
  - rewrite filter_cons_False by congruence. rewrite filter_nil, app_nil_r. by destruct st.
  - by rewrite filter_cons_True.
Qed.

Lemma body_lines_app (l1 l2 : list string) :
  body_lines (l1 ++ l2) = body_lines l1 ++ body_lines l2.
Proof. unfold body_lines. by rewrite fmap_app, filter_app. Qed.

Lemma fold_parse_body (lines : list string) (st : parse_state) :
  forallb (λ l, negb (is_header l)) lines = true →
  fold_left parse_line lines st =
    ParseState (ps_sections st) (current_section st)
               (current_content st ++ body_lines lines).
Proof.
  revert st. induction lines as [|l lines IH]; intros st; simpl.
  - intros _. rewrite app_nil_r. by destruct st.
  - intros [Hl Hrest]%andb_true_iff. apply negb_true_iff in Hl.
    rewrite parse_line_body by done. rewrite IH by done. simpl.
    change (l :: lines) with ([l] ++ lines).
    by rewrite body_lines_app, app_assoc.
Qed.

Lemma body_lines_trimmed (lines : list string) :
  Forall (trimmed Py.isspace) (body_lines lines).
Proof.
  unfold body_lines. apply Forall_forall. intros l Hl.
  apply list_elem_of_filter in Hl as [Hne Hin].
  apply list_elem_of_fmap in Hin as (l0 & -> & _).
  by apply strip_trimmed.
Qed.

Lemma strip_join_body (lines : list string) :
  body_lines lines ≠ [] →
  Py.strip (Py.join (String Py.nl EmptyString) (body_lines lines))
  = Py.join (String Py.nl EmptyString) (body_lines lines).
Proof.
  intros Hne. apply strip_of_trimmed, trimmed_join; [done|]. apply body_lines_trimmed.
Qed.

(** The section a run of body lines is saved as. *)
Lemma save_section_body (sections : odict string string) (name : string)
    (lines : list string) :
  save_section (ParseState sections name (body_lines lines)) =
    if is_nil (body_lines lines) then sections
    else od_set name (Py.join (String Py.nl EmptyString) (body_lines lines)) sections.
Proof.
  unfold save_section. cbn [current_content current_section ps_sections].
  destruct (decide (body_lines lines = [])) as [->|Hne]; [done|].
  rewrite strip_join_body by done. done.
Qed.

(** C3, amended. A text without header lines that has at least one line
    that is not blank yields the one section [introduction], whose body is
    the stripped non-blank lines joined by newlines; when every line is
    blank it yields no section at all. *)
Theorem C3_headerless_input (content : string) :
  forallb (λ l, negb (is_header l)) (Py.split Py.nl content) = true →
  _parse_content_sections content =
    if is_nil (body_lines (Py.split Py.nl content)) then []
    else [("introduction",
           Py.join (String Py.nl EmptyString) (body_lines (Py.split Py.nl content)))].
Proof.
  intros Hno. unfold _parse_content_sections.
  rewrite fold_parse_body by done. simpl.
  by rewrite save_section_body.
Qed.

(** ** Section names *)

Lemma parse_line_header (st : parse_state) (line : string) :
  is_header line = true →
  parse_line st line = ParseState (save_section st) (header_key line) [].
Proof. unfold is_header, parse_line. by intros ->. Qed.

Lemma replace_no_source (a b : ascii) (s : string) :
  a ≠ b → has_char a (Py.replace a b s) = false.
Proof.
  intros Hab. unfold has_char, Py.replace.
  induction s as [|c s IH]; [done|]. simpl.
  destruct (Ascii.eqb c a) eqn:Hc.
  - assert (Ascii.eqb b a = false) as ->; [|done].
    apply Ascii.eqb_neq. congruence.
  - by rewrite Hc.
Qed.

Lemma replace_without_target (a b : ascii) (s : string) :
  has_char b (Py.replace a b s) = false → Py.replace a b s = s.
Proof.
  unfold has_char, Py.replace.
  induction s as [|c s IH]; [done|]. simpl.
  destruct (Ascii.eqb c a) eqn:Hc.
  - by rewrite Ascii.eqb_refl.
  - destruct (Ascii.eqb c b) eqn:Hb; [done|]. simpl. intros H. by rewrite IH.
Qed.

Lemma replace_fixed (a b : ascii) (s : string) :
  has_char a s = false → Py.replace a b s = s.
Proof.
  unfold has_char, Py.replace.
  induction s as [|c s IH]; [done|]. simpl.
  destruct (Ascii.eqb c a) eqn:Hc; [done|]. simpl. intros H. by rewrite IH.
Qed.

(** No key of the table contains both kinds of character at issue: a key
    with a blank cannot be the image of the fallback, and a key without
    one has no underscore either. *)
Lemma normalization_keys_shape :
  Forall (λ kv, has_char " " kv.1 = true ∨ has_char "_" kv.1 = false) normalization_map.
Proof.
  unfold normalization_map.
  repeat (apply List.Forall_cons; [vm_compute; auto|]). apply List.Forall_nil.
Qed.

Lemma normalization_values_fixed :
  Forall (λ kv, _normalize_section_name kv.2 = kv.2) normalization_map.
Proof.
  unfold normalization_map.
  repeat (apply List.Forall_cons; [reflexivity|]). apply List.Forall_nil.
Qed.

Lemma od_get_elem_of {V} (k : string) (v : V) (d : odict string V) :
  od_get k d = Some v → (k, v) ∈ d.
Proof.
  induction d as [|[k' v'] d IH]; simpl; [done|].
  case_decide; intros Hg; simplify_eq; [left|right; auto].
Qed.

Lemma od_elem_of_get {V} (k : string) (v : V) (d : odict string V) :
  (k, v) ∈ d → is_Some (od_get k d).
Proof.
  induction d as [|[k' v'] d IH]; simpl.
  - intros H. by apply elem_of_nil in H.
  - intros H. case_decide; [eauto|].
    apply elem_of_cons in H as [?|?]; [simplify_eq|auto].
Qed.

Lemma normalize_idempotent (header_text : string) :
  _normalize_section_name (_normalize_section_name header_text)
  = _normalize_section_name header_text.
Proof.
  unfold _normalize_section_name at 2 3.
  destruct (od_get header_text normalization_map) as [v|] eqn:Hg; simpl.
  - apply od_get_elem_of in Hg.
    pose proof normalization_values_fixed as Hall.
    rewrite Forall_forall in Hall. by apply (Hall _ Hg).
  - set (h' := Py.replace " " "_" header_text).
    unfold _normalize_section_name.
    destruct (od_get h' normalization_map) as [v|] eqn:Hg'; simpl.
    + exfalso. apply od_get_elem_of in Hg'.
      pose proof normalization_keys_shape as Hall.
      rewrite Forall_forall in Hall.
      destruct (Hall _ Hg') as [Hsp|Hus]; cbn [fst] in *.
      * unfold h' in Hsp. by rewrite replace_no_source in Hsp.
      * assert (h' = header_text) as Heq by (by apply replace_without_target).
        apply od_elem_of_get in Hg' as [w Hw].
        rewrite Heq in Hw. congruence.
    + apply replace_fixed. apply replace_no_source. done.
Qed.

Lemma synonym_headers_same_state (st : parse_state) (h1 h2 : string) (name : string) :
  is_header h1 = true → is_header h2 = true →
  od_get (header_text h1) normalization_map = Some name →
  od_get (header_text h2) normalization_map = Some name →
  parse_line st h1 = parse_line st h2.
Proof.
  intros H1 H2 G1 G2. rewrite !parse_line_header by done.
  unfold header_key, _normalize_section_name. by rewrite G1, G2.
Qed.

(** ** Sections that share a name *)

Lemma save_section_settled (key body : string) (st : parse_state) :
  settled key body st → od_get key (save_section st) = Some body.
Proof.
  intros [Hget Hne]. unfold save_section.
  destruct (is_nil (current_content st)); [done|].
  by rewrite od_get_set_ne.
Qed.

Lemma parse_line_settled (key body : string) (st : parse_state) (line : string) :
  settled key body st → no_header_for key [line] = true →
  settled key body (parse_line st line).
Proof.
  intros Hst Hline. unfold no_header_for in Hline. simpl in Hline.
  rewrite andb_true_r in Hline. apply negb_true_iff in Hline.
  destruct (is_header line) eqn:Hh.
  - rewrite parse_line_header by done. simpl in Hline.
    apply bool_decide_eq_false in Hline. split; simpl; [|done].
    by apply save_section_settled.
  - rewrite parse_line_body by done. destruct Hst. by split.
Qed.

Lemma fold_parse_settled (key body : string) (lines : list string) (st : parse_state) :
  settled key body st → no_header_for key lines = true →
  settled key body (fold_left parse_line lines st).
Proof.
  revert st. induction lines as [|l lines IH]; intros st Hst Hall; [done|].
  simpl. unfold no_header_for in Hall. simpl in Hall.
  apply andb_true_iff in Hall as [Hl Hall].
  apply IH; [|done]. apply parse_line_settled; [done|].
  unfold no_header_for. simpl. by rewrite Hl.
Qed.

Lemma later_body_stored (lines_before : list string) (h : string)
    (body rest : list string) :
  is_header h = true →
  forallb (λ l, negb (is_header l)) body = true →
  is_nil (body_lines body) = false →
  default true (is_header <$> head rest) = true →
  no_header_for (header_key h) rest = true →
  od_get (header_key h)
         (save_section (fold_left parse_line (lines_before ++ h :: body ++ rest) parse_init))
  = Some (Py.join (String Py.nl EmptyString) (body_lines body)).
Proof.
  intros Hh Hbody Hne Hrest Hno.
  rewrite fold_left_app. simpl. rewrite fold_left_app.
  rewrite parse_line_header by done.
  rewrite (fold_parse_body body) by done. simpl.
  set (key := header_key h) in *.
  destruct rest as [|h2 rest]; simpl.
  - rewrite save_section_body, Hne. apply od_get_set_eq.
  - simpl in Hrest. unfold no_header_for in Hno. simpl in Hno.
    apply andb_true_iff in Hno as [Hh2 Hno]. rewrite Hrest in Hh2. simpl in Hh2.
    apply negb_true_iff, bool_decide_eq_false in Hh2.
    rewrite parse_line_header by done.
    apply save_section_settled, fold_parse_settled; [|done].
    split; simpl; [|done].
    rewrite save_section_body, Hne. apply od_get_set_eq.
Qed.

(** ** The matcher *)

Lemma substring_0 (n : nat) (w s : string) :
  n = String.length w → String.substring 0 n (w +:+ s) = w.
Proof.
  intros ->. induction w as [|c w IH]; simpl.
  - rewrite app_empty_l. by destruct s.
  - by rewrite IH.
Qed.

Lemma substring_skip (pre s : string) (n : nat) :
  String.substring (String.length pre) n (pre +:+ s) = String.substring 0 n s.
Proof. induction pre as [|c pre IH]; [done|]. rewrite app_cons. simpl. apply IH. Qed.

Lemma slice_middle (pre w s : string) :
  Py.slice (String.length pre) (String.length pre + String.length w)
           (pre +:+ w +:+ s) = w.
Proof.
  unfold Py.slice. rewrite substring_skip. apply substring_0. lia.
Qed.

Lemma cap_get_caps_ok G whole c n a b :
  caps_ok G whole c → Re.cap_get n c = Some (a, b) → G n (Py.slice a b whole).
Proof.
  unfold caps_ok. induction c as [|[m [x y]] c IH]; simpl; [done|].
  intros Hall. apply Forall_cons in Hall as [Hhd Htl].
  destruct (n =? m) eqn:Hnm.
  - apply Nat.eqb_eq in Hnm as ->. intros [= -> ->]. done.
  - by apply IH.
Qed.

Lemma star_loop_sound G whole r :
  sound_for G whole r (Re.rmatch r) →
  ∀ fuel, sound_for G whole (Re.Star r) (Re.star_loop (Re.rmatch r) fuel).
Proof.
  intros Hr fuel. induction fuel as [|fuel IH];
    intros pos s c k o pre Hwhole Hpos Hc Hrun; simpl in Hrun.
  - exists EmptyString, s, c. rewrite Nat.add_0_r. repeat split; [constructor|done| |done].
    intros n [?|?]; done.
  - destruct (Re.rmatch r pos s c _) as [o'|] eqn:Hbody.
    + injection Hrun as ->.
      destruct (Hr _ _ _ _ _ _ Hwhole Hpos Hc Hbody)
        as (w1 & s1 & c1 & -> & Hw1 & Hc1 & Hd1 & Hk1).
      destruct (_ <? _) eqn:Hlt; [|done].
      destruct (IH (pos + String.length w1) s1 c1 k o (pre +:+ w1))
        as (w2 & s2 & c2 & -> & Hw2 & Hc2 & Hd2 & Hk2); [| |done|done|].
      * by rewrite Hwhole, app_assoc_str.
      * rewrite length_app_str. lia.
      * exists (w1 +:+ w2), s2, c2.
        rewrite app_assoc_str, length_app_str, Nat.add_assoc.
        repeat split; [by constructor|done| |done].
        intros n [?|?]; [done|]. apply Hd2. right. apply Hd1. by right.
    + exists EmptyString, s, c. rewrite Nat.add_0_r.
      repeat split; [constructor|done| |done]. intros n [?|?]; done.
Qed.

Lemma rmatch_sound G whole r : groups_ok G r → sound_for G whole r (Re.rmatch r).
Proof.
  induction r as [|a|p|r1 IH1 r2 IH2|r1 IH1 r2 IH2|r1 IH1|m r1 IH1]; intros Hg.
  - intros pos s c k o pre Hwhole Hpos Hc Hrun. simpl in Hrun.
    exists EmptyString, s, c. rewrite Nat.add_0_r.
    repeat split; [constructor|done| |done]. intros n [?|?]; done.
  - intros pos s c k o pre Hwhole Hpos Hc Hrun. simpl in Hrun.
    destruct s as [|b s]; [done|].
    destruct (Ascii.eqb b a) eqn:Hb; [|done]. apply Ascii.eqb_eq in Hb as ->.
    exists (String a EmptyString), s, c. simpl. rewrite Nat.add_1_r.
    repeat split; [constructor|done| |done]. intros n [?|?]; done.
  - intros pos s c k o pre Hwhole Hpos Hc Hrun. simpl in Hrun.
    destruct s as [|b s]; [done|].
    destruct (p b) eqn:Hb; [|done].
    exists (String b EmptyString), s, c. simpl. rewrite Nat.add_1_r.
    repeat split; [by constructor|done| |done]. intros n [?|?]; done.
  - destruct Hg as [Hg1 Hg2].
    intros pos s c k o pre Hwhole Hpos Hc Hrun. simpl in Hrun.
    destruct (IH1 Hg1 _ _ _ _ _ _ Hwhole Hpos Hc Hrun)
      as (w1 & s1 & c1 & -> & Hw1 & Hc1 & Hd1 & Hk1).
    destruct (IH2 Hg2 (pos + String.length w1) s1 c1 k o (pre +:+ w1))
      as (w2 & s2 & c2 & -> & Hw2 & Hc2 & Hd2 & Hk2); [| |done|done|].
    + by rewrite Hwhole, app_assoc_str.
    + rewrite length_app_str. lia.
    + exists (w1 +:+ w2), s2, c2.
      rewrite app_assoc_str, length_app_str, Nat.add_assoc.
      repeat split; [by constructor|done| |done].
      intros n [Hn|Hn]; simpl in *.
      * apply orb_true_iff in Hn as [Hn|Hn]; [|by apply Hd2; left].
        apply Hd2. right. apply Hd1. by left.
      * apply Hd2. right. apply Hd1. by right.
  - destruct Hg as [Hg1 Hg2].
    intros pos s c k o pre Hwhole Hpos Hc Hrun. simpl in Hrun.
    destruct (Re.rmatch r1 pos s c k) as [o'|] eqn:H1.
    + injection Hrun as ->.
      destruct (IH1 Hg1 _ _ _ _ _ _ Hwhole Hpos Hc H1)
        as (w1 & s1 & c1 & -> & Hw1 & Hc1 & Hd1 & Hk1).
      exists w1, s1, c1. repeat split; [by apply M_AltL|done| |done].
      intros n [Hn|Hn]; simpl in *.
      * apply andb_true_iff in Hn as [Hn _]. apply Hd1. by left.
      * apply Hd1. by right.
    + destruct (IH2 Hg2 _ _ _ _ _ _ Hwhole Hpos Hc Hrun)
        as (w1 & s1 & c1 & -> & Hw1 & Hc1 & Hd1 & Hk1).
      exists w1, s1, c1. repeat split; [by apply M_AltR|done| |done].
      intros n [Hn|Hn]; simpl in *.
      * apply andb_true_iff in Hn as [_ Hn]. apply Hd1. by left.
      * apply Hd1. by right.
  - intros pos s c k o pre Hwhole Hpos Hc Hrun. simpl in Hrun.
    apply (star_loop_sound G whole r1 (IH1 Hg) _ _ _ _ _ _ _ Hwhole Hpos Hc Hrun).
  - destruct Hg as [Hg1 HG].
    intros pos s c k o pre Hwhole Hpos Hc Hrun. simpl in Hrun.
    destruct (IH1 Hg1 _ _ _ _ _ _ Hwhole Hpos Hc Hrun)
      as (w1 & s1 & c1 & -> & Hw1 & Hc1 & Hd1 & Hk1).
    exists w1, s1, ((m, (pos, pos + String.length w1)) :: c1).
    repeat split; [by constructor| | |done].
    + apply Forall_cons. split; [|done]. simpl.
      rewrite Hwhole, <- Hpos, slice_middle. by apply HG.
    + intros n Hn. simpl. destruct (n =? m) eqn:Hnm; [eauto|].
      apply Hd1. destruct Hn as [Hn|Hn]; [|by right].
      simpl in Hn. rewrite Hnm in Hn. by left.
Qed.

Lemma match_at_sound G whole r pos s pre e s' c :
  groups_ok G r → whole = pre +:+ s → String.length pre = pos →
  Re.match_at r pos s = Some (e, s', c) →
  ∃ w, s = w +:+ s' ∧ e = pos + String.length w
       ∧ match_ok G r whole (Re.MatchObj pos e c).
Proof.
  intros Hg Hwhole Hpos Hrun. unfold Re.match_at in Hrun.
  destruct (rmatch_sound G whole r Hg pos s [] Re.accept (e, s', c) pre Hwhole Hpos)
    as (w & s1 & c1 & -> & Hw & Hc & Hd & Hk); [by apply Forall_nil|done|].
  unfold Re.accept in Hk. injection Hk as <- <- <-.
  exists w. repeat split.
  exists pre, w, s1. simpl. repeat split; try done; [lia|].
  intros n Hn. apply Hd. by left.
Qed.

(** What holds of one anchored attempt holds of every match of a scan. *)
Lemma scan_forall (Q : Re.rmatch_obj → Prop) (whole : string) (r : Re.regex) :
  (∀ pos s pre e s' c,
     whole = pre +:+ s → String.length pre = pos →
     Re.match_at r pos s = Some (e, s', c) →
     Q (Re.MatchObj pos e c) ∧ ∃ w, s = w +:+ s' ∧ e = pos + String.length w) →
  ∀ fuel pos s pre, whole = pre +:+ s → String.length pre = pos →
    Forall Q (Re.scan r fuel pos s).
Proof.
  intros Hstep fuel. induction fuel as [|fuel IH]; intros pos s pre Hwhole Hpos; simpl.
  { by apply Forall_nil. }
  assert (Hnext : Forall Q (if Py.is_empty s then []
                            else Re.scan r fuel (S pos) (Re.tail s))).
  { destruct s as [|a s]; simpl; [by apply Forall_nil|].
    apply (IH _ _ (pre +:+ String a EmptyString)).
    - by rewrite Hwhole, app_assoc_str.
    - rewrite length_app_str. simpl. lia. }
  destruct (Re.match_at r pos s) as [[[e s'] c]|] eqn:Hm; [|done].
  destruct (Hstep pos s pre e s' c Hwhole Hpos Hm) as (HQ & w & -> & ->).
  apply Forall_cons. split; [done|].
  destruct (_ <? _); [|done].
  apply (IH _ _ (pre +:+ w)).
  - by rewrite Hwhole, app_assoc_str.
  - rewrite length_app_str. lia.
Qed.

Lemma scan_sound G whole r :
  groups_ok G r →
  ∀ fuel pos s pre, whole = pre +:+ s → String.length pre = pos →
    Forall (match_ok G r whole) (Re.scan r fuel pos s).
Proof.
  intros Hg. apply scan_forall.
  intros pos s pre e s' c Hwhole Hpos Hm.
  destruct (match_at_sound G whole r pos s pre e s' c Hg Hwhole Hpos Hm)
    as (w & -> & -> & Hok).
  split; [done|]. by exists w.
Qed.

Lemma finditer_sound G r content :
  groups_ok G r → Forall (match_ok G r content) (Re.finditer r content).
Proof.
  intros Hg. apply (scan_sound G content r Hg _ 0 content EmptyString); done.
Qed.

Lemma group_ok G r content m n :
  match_ok G r content m → defines r n = true → G n (Re.group content m n).
Proof.
  intros (pre & w & post & _ & _ & _ & _ & Hc & Hd) Hn.
  destruct (Hd n Hn) as [[a b] Hab]. unfold Re.group. rewrite Hab.
  by apply (cap_get_caps_ok G content (Re.m_caps m)).
Qed.


(** ** Integers in citations and references *)

Lemma all_chars_app p s t : all_chars p (s +:+ t) = all_chars p s && all_chars p t.
Proof.
  induction s as [|c s IH]; [done|]. rewrite app_cons. simpl.
  by rewrite IH, andb_assoc.
Qed.

Lemma all_chars_impl (p q : ascii → bool) s :
  (∀ c, p c = true → q c = true) → all_chars p s = true → all_chars q s = true.
Proof.
  intros Hpq. induction s as [|c s IH]; [done|]. simpl.
  intros [Hc Hs]%andb_true_iff. rewrite (Hpq _ Hc). by apply IH.
Qed.

Lemma matches_star_cls p w : matches (Re.Star (Re.Cls p)) w → all_chars p w = true.
Proof.
  intros H. remember (Re.Star (Re.Cls p)) as r eqn:Hr.
  induction H as [| | | | | | |r0 w1 w2 H1 _ H2 IH2|]; try discriminate; [done|].
  injection Hr as ->. rewrite all_chars_app, IH2 by done.
  inversion H1; subst. simpl. by rewrite H0.
Qed.

Lemma matches_plus_cls p w :
  matches (Re.Plus (Re.Cls p)) w → all_chars p w = true ∧ Py.is_empty w = false.
Proof.
  intros H. inversion H as [| | |r1 r2 w1 w2 H1 H2| | | | |]; subst.
  inversion H1; subst. apply matches_star_cls in H2.
  rewrite app_cons. simpl. rewrite app_empty_l. by rewrite H2, H3.
Qed.

Lemma matches_rep4_cls p w :
  matches (Re.Rep 4 (Re.Cls p)) w → all_chars p w = true ∧ Py.is_empty w = false.
Proof.
  simpl. intros H.
  repeat match goal with
         | H : matches (Re.Seq _ _) _ |- _ => inversion H; subst; clear H
         | H : matches (Re.Cls _) _ |- _ => inversion H; subst; clear H
         | H : matches Re.Eps _ |- _ => inversion H; subst; clear H
         end.
  rewrite !app_cons, !app_empty_l. simpl.
  repeat match goal with H : p _ = true |- _ => rewrite H; clear H end. done.
Qed.

Lemma digit_not_space c : Py.isdigit c = true → Py.isspace c = false.
Proof. destruct c as [[] [] [] [] [] [] [] []]; vm_compute; congruence. Qed.

Lemma digit_not_space_int c : Py.isdigit c = true → Py.isspace_int c = false.
Proof. destruct c as [[] [] [] [] [] [] [] []]; vm_compute; congruence. Qed.

Lemma digit_not_sign c :
  Py.isdigit c = true → Ascii.eqb c "-" = false ∧ Ascii.eqb c "+" = false.
Proof. destruct c as [[] [] [] [] [] [] [] []]; vm_compute; auto; congruence. Qed.

Lemma space_not_comma c : Py.isspace c = true → Ascii.eqb c "," = false.
Proof. destruct c as [[] [] [] [] [] [] [] []]; vm_compute; congruence. Qed.

Lemma digit_not_comma c : Py.isdigit c = true → Ascii.eqb c "," = false.
Proof. destruct c as [[] [] [] [] [] [] [] []]; vm_compute; congruence. Qed.

Lemma rstrip_by_none p s :
  all_chars (λ c, negb (p c)) s = true → Py.rstrip_by p s = s.
Proof.
  induction s as [|c s IH]; [done|]. simpl.
  intros [Hc Hs]%andb_true_iff. apply negb_true_iff in Hc. by rewrite Hc, IH.
Qed.

Lemma lstrip_by_all p s t :
  all_chars p s = true → Py.lstrip_by p (s +:+ t) = Py.lstrip_by p t.
Proof.
  induction s as [|c s IH]; [done|]. rewrite app_cons. simpl.
  intros [Hc Hs]%andb_true_iff. by rewrite Hc, IH.
Qed.

Lemma lstrip_by_none p s :
  all_chars (λ c, negb (p c)) s = true → Py.lstrip_by p s = s.
Proof.
  destruct s as [|c s]; [done|]. simpl.
  intros [Hc Hs]%andb_true_iff. apply negb_true_iff in Hc. by rewrite Hc.
Qed.


Lemma strip_digits (d : string) : all_chars Py.isdigit d = true → Py.strip d = d.
Proof.
  intros Hd.
  assert (all_chars (λ c, negb (Py.isspace c)) d = true) as Hns.
  { eapply all_chars_impl; [|done]. intros c Hc. by rewrite digit_not_space. }
  unfold Py.strip. by rewrite lstrip_by_none, rstrip_by_none.
Qed.




Lemma split_no_sep (sep : ascii) (a : string) :
  all_chars (λ c, negb (Ascii.eqb c sep)) a = true → Py.split sep a = [a].
Proof.
  induction a as [|c a IH]; [done|]. simpl.
  intros [Hc Ha]%andb_true_iff. apply negb_true_iff in Hc. by rewrite Hc, IH.
Qed.

Lemma split_at_sep (sep : ascii) (a b : string) :
  all_chars (λ c, negb (Ascii.eqb c sep)) a = true →
  Py.split sep (a +:+ String sep b) = a :: Py.split sep b.
Proof.
  induction a as [|c a IH]; simpl.
  - intros _. rewrite ?app_empty_l. simpl. by rewrite Ascii.eqb_refl.
  - intros [Hc Ha]%andb_true_iff. apply negb_true_iff in Hc.
    rewrite ?app_cons. simpl. by rewrite Hc, IH.
Qed.

Lemma number_token_no_comma (t : string) :
  number_token t → all_chars (λ c, negb (Ascii.eqb c ",")) t = true.
Proof.
  intros (ws & d & -> & Hws & Hd & _). rewrite all_chars_app.
  apply andb_true_iff. split.
  - eapply all_chars_impl; [|exact Hws]. intros c Hc. by rewrite space_not_comma.
  - eapply all_chars_impl; [|exact Hd]. intros c Hc. by rewrite digit_not_comma.
Qed.

Lemma more_numbers_tokens (rest : string) :
  matches more_numbers rest →
  ∀ a, number_token a →
    ∃ toks, Py.split "," (a +:+ rest) = a :: toks ∧ Forall number_token toks.
Proof.
  unfold more_numbers. intros H.
  remember (Re.Star _) as r eqn:Hr.
  induction H as [| | | | | | |r0 w1 w2 H1 _ H2 IH2|]; try discriminate.
  - intros a Ha. exists []. rewrite app_empty_r.
    split; [|done]. by apply split_no_sep, number_token_no_comma.
  - injection Hr as ->. intros a Ha.
    inversion H1 as [| | |? ? c1 rest1 Hc Hitem| | | | |]; subst.
    inversion Hc; subst.
    inversion Hitem as [| | |? ? ws d Hws Hd| | | | |]; subst.
    apply matches_star_cls in Hws. apply matches_plus_cls in Hd as [Hd Hne].
    assert (number_token (ws +:+ d)) as Htok by (by exists ws, d).
    destruct (IH2 eq_refl _ Htok) as (toks & Hsplit & Htoks).
    exists ((ws +:+ d) :: toks). split; [|by constructor].
    rewrite app_cons, app_empty_l, app_cons.
    rewrite split_at_sep by (by apply number_token_no_comma).
    by rewrite Hsplit.
Qed.

Lemma numeric_inner_tokens (w : string) :
  matches numeric_inner w → Forall number_token (Py.split "," w).
Proof.
  unfold numeric_inner. intros H.
  inversion H as [| | |? ? d rest Hd Hrest| | | | |]; subst.
  apply matches_plus_cls in Hd as [Hd Hne].
  assert (number_token d) as Htok.
  { exists EmptyString, d. by rewrite app_empty_l. }
  destruct (more_numbers_tokens rest Hrest d Htok) as (toks & -> & Htoks).
  by constructor.
Qed.

(** ** Extraction never raises *)

Lemma numeric_groups_ok :
  groups_ok (group_in 1 numeric_inner) (citations_numeric _initialize_formatting_rules).
Proof. simpl. unfold group_in. tauto. Qed.

Lemma author_year_groups_ok :
  groups_ok (group_in 2 (Re.Rep 4 cls_digit))
            (citations_author_year _initialize_formatting_rules).
Proof. simpl. unfold group_in. repeat split; try done; intros; discriminate. Qed.











Lemma for_each_elem {A B} (f : A → raises B) (l : list A) (bs : list B) (b : B) :
  for_each f l = inr bs → b ∈ bs → ∃ a, a ∈ l ∧ f a = inr b.
Proof.
  revert bs. induction l as [|a l IH]; intros bs; simpl.
  - intros [= <-] Hb. by apply elem_of_nil in Hb.
  - destruct (f a) as [e|b0] eqn:Hfa; simpl; [done|].
    destruct (for_each f l) as [e|bs0] eqn:Hl; simpl; [done|].
    intros [= <-] Hb. apply elem_of_cons in Hb as [->|Hb].
    + exists a. split; [left|done].
    + destruct (IH bs0 eq_refl Hb) as (a' & Ha' & Hfa'). exists a'. split; [by right|done].
Qed.








(** ** Equation identifiers *)

Lemma filter_imap_all {A B} (P : B → bool) (f : nat → A → B) (l : list A) :
  (∀ i a, P (f i a) = true) → filter (λ b, P b = true) (imap f l) = imap f l.
Proof.
  intros HP. revert f HP. induction l as [|a l IH]; intros f HP; [done|].
  rewrite imap_cons. rewrite filter_cons_True by apply HP.
  f_equal. apply IH. intros i a'. apply HP.
Qed.

Lemma filter_imap_none {A B} (P : B → bool) (f : nat → A → B) (l : list A) :
  (∀ i a, P (f i a) = false) → filter (λ b, P b = true) (imap f l) = [].
Proof.
  intros HP. revert f HP. induction l as [|a l IH]; intros f HP; [done|].
  rewrite imap_cons. rewrite filter_cons_False by (by rewrite HP).
  apply IH. intros i a'. apply HP.
Qed.





(** ** Greedy runs of one character class *)

Lemma rmatch_seq r1 r2 pos s c k :
  Re.rmatch (Re.Seq r1 r2) pos s c k
  = Re.rmatch r1 pos s c (λ pos' s' c', Re.rmatch r2 pos' s' c' k).
Proof. reflexivity. Qed.

Lemma rmatch_star r pos s c k :
  Re.rmatch (Re.Star r) pos s c k
  = Re.star_loop (Re.rmatch r) (String.length s) pos s c k.
Proof. reflexivity. Qed.

Lemma rmatch_grp n r pos s c k :
  Re.rmatch (Re.Grp n r) pos s c k
  = Re.rmatch r pos s c (λ pos' s' c', k pos' s' ((n, (pos, pos')) :: c')).
Proof. reflexivity. Qed.

Lemma rmatch_chr a pos s c k :
  Re.rmatch (Re.Chr a) pos s c k
  = match s with
    | String b s' => if Ascii.eqb b a then k (S pos) s' c else None
    | EmptyString => None
    end.
Proof. reflexivity. Qed.

Lemma rmatch_cls p pos s c k :
  Re.rmatch (Re.Cls p) pos s c k
  = match s with
    | String b s' => if p b then k (S pos) s' c else None
    | EmptyString => None
    end.
Proof. reflexivity. Qed.

Lemma rmatch_eps pos s c k : Re.rmatch Re.Eps pos s c k = k pos s c.
Proof. reflexivity. Qed.

Lemma star_cls_greedy (p : ascii → bool) (k : Re.cont) :
  rejects p k →
  ∀ fuel pos s c,
    String.length s ≤ fuel →
    Re.star_loop (Re.rmatch (Re.Cls p)) fuel pos s c k
    = k (pos + span_len p s) (Py.lstrip_by p s) c.
Proof.
  intros Hk fuel. induction fuel as [|fuel IH]; intros pos s c Hlen.
  - destruct s; [|simpl in Hlen; lia]. simpl. by rewrite Nat.add_0_r.
  - cbn [Re.star_loop]. rewrite rmatch_cls.
    destruct s as [|b s]; cbn [span_len Py.lstrip_by].
    + by rewrite Nat.add_0_r.
    + destruct (p b) eqn:Hb.
      * assert ((pos <? S pos) = true) as -> by (apply Nat.ltb_lt; lia).
        rewrite IH by (simpl in Hlen; lia).
        rewrite Nat.add_succ_r. simpl.
        destruct (k _ _ _) as [o|]; [done|]. by apply Hk.
      * by rewrite Nat.add_0_r.
Qed.

Lemma plus_cls_greedy (p : ascii → bool) (k : Re.cont) (pos : nat) (s : string)
    (c : Re.captures) :
  rejects p k →
  Re.rmatch (Re.Plus (Re.Cls p)) pos s c k
  = if 0 <? span_len p s then k (pos + span_len p s) (Py.lstrip_by p s) c else None.
Proof.
  intros Hk. unfold Re.Plus. rewrite rmatch_seq, rmatch_cls.
  destruct s as [|b s]; [done|]. cbn [span_len Py.lstrip_by].
  destruct (p b) eqn:Hb; [|done].
  rewrite rmatch_star, star_cls_greedy by done. simpl. by rewrite Nat.add_succ_r.
Qed.

Lemma span_decompose (p : ascii → bool) (s : string) :
  ∃ w, s = w +:+ Py.lstrip_by p s ∧ String.length w = span_len p s
       ∧ all_chars p w = true.
Proof.
  induction s as [|b s (w & Hs & Hlen & Hall)]; simpl.
  - by exists EmptyString.
  - destruct (p b) eqn:Hb.
    + exists (String b w). rewrite app_cons, <- Hs. simpl. by rewrite Hlen, Hb, Hall.
    + by exists EmptyString.
Qed.


(** ** Equations between single and double markers *)

Lemma not_dollar_neq (b : ascii) : not_dollar b = true → Ascii.eqb b "$" = false.
Proof. unfold not_dollar. by intros ?%negb_true_iff. Qed.

Lemma inline_match_at (pos : nat) (s : string) :
  Re.match_at (equations_inline _initialize_formatting_rules) pos s =
    match s with
    | String b s1 =>
        if Ascii.eqb b "$" then
          if 0 <? span_len not_dollar s1 then
            match Py.lstrip_by not_dollar s1 with
            | String d s2 =>
                if Ascii.eqb d "$" then
                  Some (S (S pos + span_len not_dollar s1), s2,
                        [(1, (S pos, S pos + span_len not_dollar s1))])
                else None
            | EmptyString => None
            end
          else None
        else None
    | EmptyString => None
    end.
Proof.
  unfold Re.match_at. cbn [equations_inline _initialize_formatting_rules Re.Cat].
  rewrite rmatch_seq, rmatch_chr.
  destruct s as [|b s1]; [done|]. destruct (Ascii.eqb b "$"); [|done].
  rewrite rmatch_seq, rmatch_grp.
  unfold cls_not. fold not_dollar.
  rewrite plus_cls_greedy.
  - destruct (0 <? _); [|done]. rewrite rmatch_chr.
    destruct (Py.lstrip_by not_dollar s1) as [|d s2]; [done|].
    by destruct (Ascii.eqb d "$").
  - intros p b' s' c Hb. rewrite rmatch_chr. by rewrite not_dollar_neq.
Qed.





Lemma inline_match_double (pos : nat) (t : string) :
  Re.match_at (equations_inline _initialize_formatting_rules) pos
              (dollar +:+ dollar +:+ t) = None.
Proof.
  rewrite inline_match_at. unfold dollar. rewrite !app_cons, !app_empty_l.
  by rewrite Ascii.eqb_refl.
Qed.







Lemma scan_starts (r : Re.regex) (fuel : nat) :
  ∀ pos s,
    Forall (λ m, pos ≤ Re.m_start m) (Re.scan r fuel pos s)
    ∧ NoDup (Re.m_start <$> Re.scan r fuel pos s).
Proof.
  induction fuel as [|fuel IH]; intros pos s; simpl.
  { split; [by apply Forall_nil|apply NoDup_nil_2]. }
  assert (Hnext : ∀ l, (∃ pos' s', pos < pos' ∧ l = Re.scan r fuel pos' s') ∨ l = [] →
                       Forall (λ m, pos < Re.m_start m) l ∧ NoDup (Re.m_start <$> l)).
  { intros l [(pos' & s' & Hlt & ->)| ->].
    - destruct (IH pos' s') as [Hall Hnd]. split; [|done].
      eapply Forall_impl; [done|]. simpl. intros m Hm. lia.
    - split; [by apply Forall_nil|apply NoDup_nil_2]. }
  assert (Hstep : ∀ l, Forall (λ m, pos < Re.m_start m) l ∧ NoDup (Re.m_start <$> l) →
                       Forall (λ m, pos ≤ Re.m_start m) l).
  { intros l [Hall _]. eapply Forall_impl; [done|]. simpl. intros m Hm. lia. }
  assert (Htail : Forall (λ m, pos < Re.m_start m)
                         (if Py.is_empty s then [] else Re.scan r fuel (S pos) (Re.tail s))
                  ∧ NoDup (Re.m_start <$>
                         (if Py.is_empty s then [] else Re.scan r fuel (S pos) (Re.tail s)))).
  { apply Hnext. destruct (Py.is_empty s); [by right|]. left. exists (S pos), (Re.tail s).
    split; [lia|done]. }
  destruct (Re.match_at r pos s) as [[[e s'] c]|]; [|split; [by apply Hstep|apply Htail]].
  assert (Hrest : Forall (λ m, pos < Re.m_start m)
                    (if pos <? e then Re.scan r fuel e s'
                     else if Py.is_empty s then []
                          else Re.scan r fuel (S pos) (Re.tail s))
                  ∧ NoDup (Re.m_start <$>
                    (if pos <? e then Re.scan r fuel e s'
                     else if Py.is_empty s then []
                          else Re.scan r fuel (S pos) (Re.tail s)))).
  { destruct (pos <? e) eqn:Hlt; [|done]. apply Nat.ltb_lt in Hlt.
    apply Hnext. left. by exists e, s'. }
  destruct Hrest as [Hall Hnd]. split.
  - apply Forall_cons. split; [simpl; lia|]. by apply Hstep.
  - rewrite fmap_cons. apply NoDup_cons. split; [|done]. simpl.
    intros Hin. apply list_elem_of_fmap in Hin as (m & Hm & Hin).
    rewrite Forall_forall in Hall. specialize (Hall m Hin). lia.
Qed.





(** ** The citation summary *)




(** ** The registry handed out by [get_template] *)

Lemma init_heap_holds_registry (template_name : string) :
  stored_config init_heap template_name = _initialize_templates !! template_name.
Proof.
  destruct (decide (template_name = "article")) as [->|H1]; [reflexivity|].
  destruct (decide (template_name = "conference_paper")) as [->|H2]; [reflexivity|].
  destruct (decide (template_name = "technical_report")) as [->|H3]; [reflexivity|].
  destruct (decide (template_name = "thesis")) as [->|H4]; [reflexivity|].
  transitivity (@None TemplateConfig).
  - unfold stored_config, dict_getitem.
    change (objs init_heap !! self_templates)
      with (Some (ODict [("article", VRef 2); ("conference_paper", VRef 5);
                         ("technical_report", VRef 8); ("thesis", VRef 11)])).
    simpl. repeat case_decide; congruence.
  - symmetry. unfold _initialize_templates. apply not_elem_of_list_to_map_1.
    simpl. rewrite !elem_of_cons, elem_of_nil. intros [?|[?|[?|[?|[]]]]]; congruence.
Qed.

Lemma get_template_top_level_copy (env : environment) (k : string) (v : value)
    (template_name : string) :
  ∃ t h1,
    get_template env "article" init_heap = (Some t, h1)
    ∧ stored_config (mutate t (SetKey k v) h1) template_name
      = stored_config init_heap template_name.
Proof.
  eexists _, _. split; [reflexivity|].
  destruct (decide (template_name = "article")) as [->|H1]; [reflexivity|].
  destruct (decide (template_name = "conference_paper")) as [->|H2]; [reflexivity|].
  destruct (decide (template_name = "technical_report")) as [->|H3]; [reflexivity|].
  destruct (decide (template_name = "thesis")) as [->|H4]; [reflexivity|].
  unfold stored_config, dict_getitem.
  change (objs init_heap !! self_templates)
    with (Some (ODict [("article", VRef 2); ("conference_paper", VRef 5);
                       ("technical_report", VRef 8); ("thesis", VRef 11)])).
  match goal with
  | |- context [objs ?h !! self_templates] =>
      change (objs h !! self_templates)
        with (Some (ODict [("article", VRef 2); ("conference_paper", VRef 5);
                           ("technical_report", VRef 8); ("thesis", VRef 11)]))
  end.
  simpl. repeat case_decide; congruence.
Qed.

(** C5. What [get_template] does at the failing input: the caller appends
    to the [sections] list of the dictionary it was handed, and both the
    registry and the next lookup show the appended name. *)
Theorem C5_get_template_shares_nested_lists (env : environment) :
  ∃ t h1,
    get_template env "article" init_heap = (Some t, h1)
    ∧ tc_sections <$> stored_config h1 "article"
      = Some ["title"; "authors"; "abstract"; "keywords"; "introduction";
              "methodology"; "results"; "discussion"; "conclusion"; "references"]
    ∧ tc_sections
        <$> stored_config (mutate t (AppendTo "sections" (VStr "extra")) h1) "article"
      = Some ["title"; "authors"; "abstract"; "keywords"; "introduction";
              "methodology"; "results"; "discussion"; "conclusion"; "references";
              "extra"]
    ∧ ∃ t' h3,
        get_template env "article"
                     (mutate t (AppendTo "sections" (VStr "extra")) h1) = (Some t', h3)
        ∧ tc_sections <$> read_config h3 t'
          = Some ["title"; "authors"; "abstract"; "keywords"; "introduction";
                  "methodology"; "results"; "discussion"; "conclusion"; "references";
                  "extra"].
Proof.
  eexists _, _. split; [reflexivity|]. split; [reflexivity|]. split; [reflexivity|].
  eexists _, _. split; reflexivity.
Qed.

(** C3 as stated fails on the empty text: it has no header line and yields
    no section. *)
Lemma C3_empty_input_counterexample :
  forallb (λ l, negb (is_header l)) (Py.split Py.nl EmptyString) = true
  ∧ _parse_content_sections EmptyString = [].
Proof. split; reflexivity. Qed.

Lemma C3_headerless_input_witness :
  forallb (λ l, negb (is_header l))
          (Py.split Py.nl (document ["alpha"; "  "; "  beta gamma "])) = true
  ∧ _parse_content_sections (document ["alpha"; "  "; "  beta gamma "])
    = [("introduction", document ["alpha"; "beta gamma"])].
Proof.
  split; [reflexivity|].
  apply (C3_headerless_input (document ["alpha"; "  "; "  beta gamma "])).
  reflexivity.
Defined.

(** C8. Normalising a section name twice gives what normalising it once
    gives; two documents that differ in one header line, the two headers
    being entries of the table with the same canonical name, are segmented
    alike, with that name as the key. *)
Theorem C8_section_names_canonical :
  (∀ header_text,
     _normalize_section_name (_normalize_section_name header_text)
     = _normalize_section_name header_text)
  ∧ (∀ content1 content2 before h1 h2 after name,
       Py.split Py.nl content1 = before ++ h1 :: after →
       Py.split Py.nl content2 = before ++ h2 :: after →
       is_header h1 = true → is_header h2 = true →
       od_get (header_text h1) normalization_map = Some name →
       od_get (header_text h2) normalization_map = Some name →
       header_key h1 = name ∧ header_key h2 = name
       ∧ _parse_content_sections content1 = _parse_content_sections content2)
  ∧ header_text "# Methods" = "methods"
  ∧ header_text "# methodology" = "methodology"
  ∧ od_keys (_parse_content_sections (document ["# Methods"; "We measure."]))
    = ["methodology"]
  ∧ od_keys (_parse_content_sections (document ["# methodology"; "We measure."]))
    = ["methodology"].
Proof.
  split; [apply normalize_idempotent|]. split; [|repeat split].
  intros content1 content2 before h1 h2 after name Hs1 Hs2 Hh1 Hh2 Hn1 Hn2.
  unfold header_key, _normalize_section_name. rewrite Hn1, Hn2.
  split; [done|]. split; [done|].
  unfold _parse_content_sections. rewrite Hs1, Hs2, !fold_left_app. simpl.
  by rewrite (synonym_headers_same_state _ h1 h2 name).
Qed.

Lemma C8_section_names_canonical_witness :
  _parse_content_sections (document ["Preface."; "## Methods"; "We measure."])
  = _parse_content_sections (document ["Preface."; "# METHODOLOGY "; "We measure."]).
Proof.
  destruct C8_section_names_canonical as (_ & Hsyn & _).
  apply (Hsyn _ _ ["Preface."] "## Methods" "# METHODOLOGY " ["We measure."] "methodology");
    reflexivity.
Defined.

(** C10 as stated fails when the later section has no body: nothing is
    stored for it and the earlier body stays. *)
Lemma C10_later_empty_section_counterexample :
  header_key "# Methods" = "methodology"
  ∧ header_key "# Methodology" = "methodology"
  ∧ _parse_content_sections (document ["# Methods"; "A"; "# Methodology"])
    = [("methodology", "A")].
Proof. repeat split. Qed.

(** C10, amended. When a header line is followed by a body with at least
    one line that is not blank, and no later header opens the same section
    name, the map holds exactly that body under the name, whatever an
    earlier section of the same name contained. *)
Theorem C10_later_section_replaces_earlier (content : string)
    (before : list string) (h : string) (body rest : list string) :
  Py.split Py.nl content = before ++ h :: body ++ rest →
  is_header h = true →
  forallb (λ l, negb (is_header l)) body = true →
  is_nil (body_lines body) = false →
  default true (is_header <$> head rest) = true →
  no_header_for (header_key h) rest = true →
  od_get (header_key h) (_parse_content_sections content)
  = Some (document (body_lines body)).
Proof.
  intros Hsplit Hh Hbody Hne Hrest Hno.
  unfold _parse_content_sections. rewrite Hsplit.
  by apply later_body_stored.
Qed.

Lemma C10_later_section_replaces_earlier_witness :
  _parse_content_sections
    (document ["# Methods"; "A"; "# Methodology"; "B"; "  "; "C"; "# Results"; "D"])
  = [("methodology", document ["B"; "C"]); ("results", "D")]
  ∧ od_get (header_key "# Methodology")
           (_parse_content_sections
              (document ["# Methods"; "A"; "# Methodology"; "B"; "  "; "C"; "# Results"; "D"]))
    = Some (document (body_lines ["B"; "  "; "C"])).
Proof.
  split; [reflexivity|].
  apply (C10_later_section_replaces_earlier _ ["# Methods"; "A"] "# Methodology"
           ["B"; "  "; "C"] ["# Results"; "D"]); reflexivity.
Defined.






(** ** The scan needs no more fuel than it is given *)

Lemma groups_ok_trivial (r : Re.regex) : groups_ok (λ _ _, True) r.
Proof. induction r; simpl; auto. Qed.

Lemma scan_fuel (r : Re.regex) (fuel1 : nat) :
  ∀ fuel2 pos s pre,
    String.length pre = pos →
    String.length s < fuel1 → String.length s < fuel2 →
    Re.scan r fuel1 pos s = Re.scan r fuel2 pos s.
Proof.
  induction fuel1 as [|fuel1 IH]; intros fuel2 pos s pre Hpos H1 H2; [lia|].
  destruct fuel2 as [|fuel2]; [lia|]. cbn [Re.scan].
  assert (Hnext : (if Py.is_empty s then [] else Re.scan r fuel1 (S pos) (Re.tail s))
                  = (if Py.is_empty s then [] else Re.scan r fuel2 (S pos) (Re.tail s))).
  { destruct s as [|a s]; [done|]. simpl.
    apply (IH _ _ _ (pre +:+ String a EmptyString)).
    - rewrite length_app_str. simpl. lia.
    - simpl in H1. lia.
    - simpl in H2. lia. }
  destruct (Re.match_at r pos s) as [[[e s'] c]|] eqn:Hm; [|done].
  f_equal.
  destruct (match_at_sound (λ _ _, True) (pre +:+ s) r pos s pre e s' c
              (groups_ok_trivial r) eq_refl Hpos Hm) as (w & -> & -> & _).
  destruct (pos <? _) eqn:Hlt; [|done]. apply Nat.ltb_lt in Hlt.
  rewrite length_app_str in H1, H2.
  apply (IH _ _ _ (pre +:+ w)).
  - rewrite length_app_str. lia.
  - lia.
  - lia.
Qed.

(** [finditer] is the scan with any fuel beyond the length of the text. *)
Lemma finditer_fuel (r : Re.regex) (content : string) (fuel : nat) :
  String.length content < fuel → Re.scan r fuel 0 content = Re.finditer r content.
Proof.
  intros Hlt. unfold Re.finditer. apply (scan_fuel r fuel _ 0 content EmptyString); [done|done|lia].
Qed.

(** ** The rounds of a repetition need no more fuel than they are given *)

Lemma agree_from_later pos s pos' s' k1 k2 :
  pos' + String.length s' = pos + String.length s → pos ≤ pos' →
  agree_from pos s k1 k2 → agree_from pos' s' k1 k2.
Proof. intros Hsum Hle H p q c Hpq Hp. apply H; lia. Qed.

Lemma star_loop_ext (body : nat → string → Re.captures → Re.cont → option Re.outcome) :
  (∀ pos s c k1 k2, agree_from pos s k1 k2 → body pos s c k1 = body pos s c k2) →
  ∀ fuel pos s c k1 k2,
    agree_from pos s k1 k2 →
    Re.star_loop body fuel pos s c k1 = Re.star_loop body fuel pos s c k2.
Proof.
  intros Hbody fuel. induction fuel as [|fuel IH]; intros pos s c k1 k2 Hk; simpl.
  - apply Hk; lia.
  - rewrite (Hk pos s c) by lia.
    erewrite Hbody; [reflexivity|].
    intros pos' s' c' Hsum Hle. destruct (pos <? pos'); [|done].
    apply IH. by eapply agree_from_later.
Qed.

Lemma rmatch_ext (r : Re.regex) :
  ∀ pos s c k1 k2, agree_from pos s k1 k2 → Re.rmatch r pos s c k1 = Re.rmatch r pos s c k2.
Proof.
  induction r as [|a|p|r1 IH1 r2 IH2|r1 IH1 r2 IH2|r1 IH1|m r1 IH1];
    intros pos s c k1 k2 Hk.
  - simpl. apply Hk; lia.
  - simpl. destruct s as [|b s]; [done|]. destruct (Ascii.eqb b a); [|done].
    apply Hk; simpl; lia.
  - simpl. destruct s as [|b s]; [done|]. destruct (p b); [|done].
    apply Hk; simpl; lia.
  - rewrite !rmatch_seq. apply IH1. intros pos' s' c' Hsum Hle.
    apply IH2. by eapply agree_from_later.
  - simpl. rewrite (IH1 pos s c k1 k2 Hk), (IH2 pos s c k1 k2 Hk). done.
  - rewrite !rmatch_star. by apply star_loop_ext.
  - rewrite !rmatch_grp. apply IH1. intros pos' s' c' Hsum Hle. by apply Hk.
Qed.

Lemma star_loop_fail (body : nat → string → Re.captures → Re.cont → option Re.outcome) :
  (∀ pos s c k, fails_from pos s k → body pos s c k = None) →
  ∀ fuel pos s c k, fails_from pos s k → Re.star_loop body fuel pos s c k = None.
Proof.
  intros Hbody fuel. induction fuel as [|fuel IH]; intros pos s c k Hk; simpl.
  - apply Hk; lia.
  - rewrite Hbody; [apply Hk; lia|].
    intros pos' s' c' Hsum Hle. destruct (pos <? pos'); [|done].
    apply IH. intros p q c0 Hpq Hp. apply Hk; lia.
Qed.

Lemma rmatch_fail (r : Re.regex) :
  ∀ pos s c k, fails_from pos s k → Re.rmatch r pos s c k = None.
Proof.
  induction r as [|a|p|r1 IH1 r2 IH2|r1 IH1 r2 IH2|r1 IH1|m r1 IH1];
    intros pos s c k Hk.
  - simpl. apply Hk; lia.
  - simpl. destruct s as [|b s]; [done|]. destruct (Ascii.eqb b a); [|done].
    apply Hk; simpl; lia.
  - simpl. destruct s as [|b s]; [done|]. destruct (p b); [|done].
    apply Hk; simpl; lia.
  - rewrite rmatch_seq. apply IH1. intros pos' s' c' Hsum Hle.
    apply IH2. intros p q c0 Hpq Hp. apply Hk; lia.
  - simpl. by rewrite (IH1 pos s c k Hk), (IH2 pos s c k Hk).
  - rewrite rmatch_star. by apply star_loop_fail.
  - rewrite rmatch_grp. apply IH1. intros pos' s' c' Hsum Hle. by apply Hk.
Qed.

(** Fuel beyond the length of the text left changes nothing: every round
    consumes a character. *)
Lemma star_loop_fuel (r : Re.regex) (fuel1 : nat) :
  ∀ fuel2 pos s c k,
    String.length s ≤ fuel1 → String.length s ≤ fuel2 →
    Re.star_loop (Re.rmatch r) fuel1 pos s c k
    = Re.star_loop (Re.rmatch r) fuel2 pos s c k.
Proof.
  assert (Hdone : ∀ fuel pos s c k,
            String.length s = 0 →
            Re.star_loop (Re.rmatch r) fuel pos s c k = k pos s c).
  { intros [|fuel] pos s c k Hs; simpl; [done|].
    rewrite rmatch_fail; [done|].
    intros pos' s' c' Hsum Hle.
    destruct (pos <? pos') eqn:Hlt; [|done]. apply Nat.ltb_lt in Hlt. lia. }
  induction fuel1 as [|fuel1 IH]; intros fuel2 pos s c k H1 H2.
  - rewrite !Hdone by lia. done.
  - destruct fuel2 as [|fuel2]; [rewrite !Hdone by lia; done|].
    simpl. erewrite rmatch_ext; [reflexivity|].
    intros pos' s' c' Hsum Hle.
    destruct (pos <? pos') eqn:Hlt; [|done]. apply Nat.ltb_lt in Hlt.
    apply IH; lia.
Qed.

(** ** Text formatting changes nothing *)

Lemma substring_split (s : string) :
  ∀ a n m, String.substring a n s +:+ String.substring (a + n) m s
           = String.substring a (n + m) s.
Proof.
  induction s as [|c s IH]; intros a n m.
  - destruct a, n, m; reflexivity.
  - destruct a as [|a].
    + destruct n as [|n].
      * simpl. rewrite app_empty_l. reflexivity.
      * simpl. rewrite app_cons. f_equal. apply (IH 0 n m).
    + simpl. apply IH.
Qed.

Lemma slice_split (s : string) (a b c : nat) :
  a ≤ b → b ≤ c → Py.slice a b s +:+ Py.slice b c s = Py.slice a c s.
Proof.
  intros Hab Hbc. unfold Py.slice.
  replace b with (a + (b - a)) at 2 by lia.
  rewrite substring_split. f_equal. lia.
Qed.

Lemma slice_empty (s : string) (a : nat) : Py.slice a a s = EmptyString.
Proof.
  unfold Py.slice. rewrite Nat.sub_diag. revert a.
  induction s as [|c s IH]; intros [|a]; simpl; auto.
Qed.

Lemma slice_suffix (pre s : string) :
  Py.slice (String.length pre) (String.length (pre +:+ s)) (pre +:+ s) = s.
Proof.
  unfold Py.slice. rewrite substring_skip, length_app_str.
  replace (String.length pre + String.length s - String.length pre)
    with (String.length s) by lia.
  rewrite <- (app_empty_r s) at 2. apply substring_0. reflexivity.
Qed.

Lemma splice_shift (tpl : list Re.repl_item) (content : string) (pos pos' : nat)
    (ms : list Re.rmatch_obj) :
  pos ≤ pos' → pos' ≤ String.length content →
  Forall (λ m, pos' ≤ Re.m_start m) ms →
  Re.splice tpl content pos ms
  = Py.slice pos pos' content +:+ Re.splice tpl content pos' ms.
Proof.
  intros Hle Hlen Hall. destruct ms as [|m ms]; simpl.
  - by rewrite slice_split.
  - apply Forall_cons in Hall as [Hm _].
    rewrite <- (slice_split content pos pos' (Re.m_start m)) by done.
    by rewrite app_assoc_str.
Qed.

(** A substitution whose replacement for each match is the text matched
    returns the text it was given. *)
Lemma splice_scan_same (tpl : list Re.repl_item) (content : string) (r : Re.regex) :
  (∀ pos s pre e s' c,
     content = pre +:+ s → String.length pre = pos →
     Re.match_at r pos s = Some (e, s', c) →
     ∃ w, s = w +:+ s' ∧ e = pos + String.length w
          ∧ Re.expand tpl content (Re.MatchObj pos e c) = w) →
  ∀ fuel pos s pre,
    content = pre +:+ s → String.length pre = pos →
    Re.splice tpl content pos (Re.scan r fuel pos s) = s.
Proof.
  intros Hstep fuel. induction fuel as [|fuel IH]; intros pos s pre Hcontent Hpos.
  { simpl. rewrite Hcontent, <- Hpos. apply slice_suffix. }
  assert (Hnext : Re.splice tpl content pos
                    (if Py.is_empty s then [] else Re.scan r fuel (S pos) (Re.tail s)) = s).
  { destruct s as [|a s1]; cbn [Py.is_empty Re.tail].
    - simpl. rewrite Hcontent, <- Hpos. apply slice_suffix.
    - rewrite (splice_shift _ _ pos (S pos)).
      + rewrite (IH (S pos) s1 (pre +:+ String a EmptyString)).
        * rewrite Hcontent, <- Hpos.
          replace (S (String.length pre)) with (String.length pre + String.length (String a EmptyString))
            by (simpl; lia).
          replace (pre +:+ String a s1) with (pre +:+ String a EmptyString +:+ s1) by done.
          by rewrite slice_middle.
        * by rewrite Hcontent, app_assoc_str.
        * rewrite length_app_str. simpl. lia.
      + lia.
      + rewrite Hcontent, length_app_str. simpl. lia.
      + apply scan_starts. }
  cbn [Re.scan].
  destruct (Re.match_at r pos s) as [[[e s'] c]|] eqn:Hm; [|done].
  destruct (Hstep pos s pre e s' c Hcontent Hpos Hm) as (w & Hs & He & Hexp).
  cbn [Re.splice Re.m_start Re.m_end]. rewrite slice_empty, app_empty_l, Hexp.
  destruct (pos <? e) eqn:Hlt.
  - rewrite (IH e s' (pre +:+ w)); [by rewrite Hs| |].
    + by rewrite Hcontent, Hs, app_assoc_str.
    + rewrite length_app_str. lia.
  - apply Nat.ltb_ge in Hlt. assert (String.length w = 0) as Hw0 by lia.
    destruct w; [|simpl in Hw0; lia]. rewrite app_empty_l.
    replace e with pos by lia. done.
Qed.

Lemma sub_same (tpl : list Re.repl_item) (content : string) (r : Re.regex) :
  (∀ pos s pre e s' c,
     content = pre +:+ s → String.length pre = pos →
     Re.match_at r pos s = Some (e, s', c) →
     ∃ w, s = w +:+ s' ∧ e = pos + String.length w
          ∧ Re.expand tpl content (Re.MatchObj pos e c) = w) →
  Re.sub r tpl content = content.
Proof.
  intros Hstep. unfold Re.sub, Re.finditer.
  by apply (splice_scan_same tpl content r Hstep _ 0 content EmptyString).
Qed.

Lemma single_marker_match_at (a : ascii) (pos : nat) (s : string) :
  Re.match_at (Re.Cat [Re.Chr a; Re.Grp 1 (Re.Plus (cls_not a)); Re.Chr a]) pos s =
    match s with
    | String b s1 =>
        if Ascii.eqb b a then
          if 0 <? span_len (other_than a) s1 then
            match Py.lstrip_by (other_than a) s1 with
            | String d s2 =>
                if Ascii.eqb d a then
                  Some (S (S pos + span_len (other_than a) s1), s2,
                        [(1, (S pos, S pos + span_len (other_than a) s1))])
                else None
            | EmptyString => None
            end
          else None
        else None
    | EmptyString => None
    end.
Proof.
  unfold Re.match_at. cbn [Re.Cat].
  rewrite rmatch_seq, rmatch_chr.
  destruct s as [|b s1]; [done|]. destruct (Ascii.eqb b a); [|done].
  rewrite rmatch_seq, rmatch_grp.
  unfold cls_not. fold (other_than a).
  rewrite plus_cls_greedy.
  - destruct (0 <? _); [|done]. rewrite rmatch_chr.
    destruct (Py.lstrip_by (other_than a) s1) as [|d s2]; [done|].
    by destruct (Ascii.eqb d a).
  - intros p b' s' c Hb. rewrite rmatch_chr.
    unfold other_than in Hb. apply negb_true_iff in Hb. by rewrite Hb.
Qed.

Lemma double_marker_match_at (a : ascii) (pos : nat) (s : string) :
  Re.match_at (Re.Cat [Re.Lit (String a (String a EmptyString));
                       Re.Grp 1 (Re.Plus (cls_not a));
                       Re.Lit (String a (String a EmptyString))]) pos s =
    match s with
    | String b (String b' s1) =>
        if Ascii.eqb b a && Ascii.eqb b' a then
          if 0 <? span_len (other_than a) s1 then
            match Py.lstrip_by (other_than a) s1 with
            | String d (String d' s2) =>
                if Ascii.eqb d a && Ascii.eqb d' a then
                  Some (S (S (S (S pos) + span_len (other_than a) s1)), s2,
                        [(1, (S (S pos), S (S pos) + span_len (other_than a) s1))])
                else None
            | _ => None
            end
          else None
        else None
    | _ => None
    end.
Proof.
  unfold Re.match_at. cbn [Re.Cat Re.Lit].
  rewrite !rmatch_seq, rmatch_chr.
  destruct s as [|b s0]; [done|]. destruct (Ascii.eqb b a); [|by destruct s0].
  rewrite !rmatch_seq, rmatch_chr.
  destruct s0 as [|b' s1]; [done|]. destruct (Ascii.eqb b' a); [|done].
  cbn [andb]. rewrite rmatch_eps, rmatch_seq, rmatch_grp.
  unfold cls_not. fold (other_than a).
  rewrite plus_cls_greedy.
  - destruct (0 <? _); [|done]. rewrite !rmatch_seq, rmatch_chr.
    destruct (Py.lstrip_by (other_than a) s1) as [|d s']; [done|].
    destruct (Ascii.eqb d a); [|by destruct s'].
    rewrite !rmatch_seq, rmatch_chr.
    destruct s' as [|d' s2]; [done|].
    by destruct (Ascii.eqb d' a).
  - intros p b0 s' c Hb. rewrite !rmatch_seq, rmatch_chr.
    unfold other_than in Hb. apply negb_true_iff in Hb. by rewrite Hb.
Qed.

Lemma single_marker_same (a : ascii) (content : string) :
  Re.sub (Re.Cat [Re.Chr a; Re.Grp 1 (Re.Plus (cls_not a)); Re.Chr a])
         [Re.RLit (String a EmptyString); Re.RGroup 1; Re.RLit (String a EmptyString)]
         content
  = content.
Proof.
  apply sub_same. intros pos s pre e s' c Hcontent Hpos Hm.
  rewrite single_marker_match_at in Hm.
  destruct s as [|b s1]; [done|].
  destruct (Ascii.eqb b a) eqn:Hb; [|done]. apply Ascii.eqb_eq in Hb as ->.
  destruct (0 <? _); [|done].
  destruct (span_decompose (other_than a) s1) as (w & Hs1 & Hlen & _).
  destruct (Py.lstrip_by (other_than a) s1) as [|d s2]; [done|].
  destruct (Ascii.eqb d a) eqn:Hd; [|done]. apply Ascii.eqb_eq in Hd as ->.
  injection Hm as <- <- <-.
  exists (String a (w +:+ String a EmptyString)). split; [|split].
  - by rewrite Hs1 at 1; rewrite !app_cons, app_assoc_str.
  - simpl. rewrite length_app_str. simpl. lia.
  - cbn [Re.expand]. unfold Re.group. cbn [Re.cap_get Re.m_caps Nat.eqb].
    rewrite app_cons, app_empty_l, app_empty_r. f_equal. f_equal.
    rewrite <- Hlen, Hcontent, Hs1, <- Hpos.
    replace (pre +:+ String a (w +:+ String a s2))
      with ((pre +:+ String a EmptyString) +:+ w +:+ String a s2)
      by (by rewrite app_assoc_str).
    replace (S (String.length pre)) with (String.length (pre +:+ String a EmptyString))
      by (rewrite length_app_str; simpl; lia).
    replace (S (String.length pre + String.length w))
      with (String.length (pre +:+ String a EmptyString) + String.length w)
      by (rewrite length_app_str; simpl; lia).
    apply slice_middle.
Qed.

Lemma double_marker_same (a : ascii) (content : string) :
  Re.sub (Re.Cat [Re.Lit (String a (String a EmptyString));
                  Re.Grp 1 (Re.Plus (cls_not a));
                  Re.Lit (String a (String a EmptyString))])
         [Re.RLit (String a (String a EmptyString)); Re.RGroup 1;
          Re.RLit (String a (String a EmptyString))]
         content
  = content.
Proof.
  apply sub_same. intros pos s pre e s' c Hcontent Hpos Hm.
  rewrite double_marker_match_at in Hm.
  destruct s as [|b [|b' s1]]; [done..|].
  destruct (Ascii.eqb b a) eqn:Hb; [|done]. apply Ascii.eqb_eq in Hb as ->.
  destruct (Ascii.eqb b' a) eqn:Hb'; [|done]. apply Ascii.eqb_eq in Hb' as ->.
  cbn [andb] in Hm.
  destruct (0 <? _); [|done].
  destruct (span_decompose (other_than a) s1) as (w & Hs1 & Hlen & _).
  destruct (Py.lstrip_by (other_than a) s1) as [|d [|d' s2]]; [done..|].
  destruct (Ascii.eqb d a) eqn:Hd; [|done]. apply Ascii.eqb_eq in Hd as ->.
  destruct (Ascii.eqb d' a) eqn:Hd'; [|done]. apply Ascii.eqb_eq in Hd' as ->.
  injection Hm as <- <- <-.
  exists (String a (String a (w +:+ String a (String a EmptyString)))). split; [|split].
  - by rewrite Hs1 at 1; rewrite !app_cons, app_assoc_str.
  - simpl. rewrite length_app_str. simpl. lia.
  - cbn [Re.expand]. unfold Re.group. cbn [Re.cap_get Re.m_caps Nat.eqb].
    rewrite !app_cons, app_empty_l, app_empty_r. f_equal. f_equal. f_equal.
    rewrite <- Hlen, Hcontent, Hs1, <- Hpos.
    replace (pre +:+ String a (String a (w +:+ String a (String a s2))))
      with ((pre +:+ String a (String a EmptyString)) +:+ w +:+ String a (String a s2))
      by (by rewrite app_assoc_str).
    replace (S (S (String.length pre)))
      with (String.length (pre +:+ String a (String a EmptyString)))
      by (rewrite length_app_str; simpl; lia).
    replace (S (S (String.length pre + String.length w)))
      with (String.length (pre +:+ String a (String a EmptyString)) + String.length w)
      by (rewrite length_app_str; simpl; lia).
    apply slice_middle.
Qed.

Lemma text_formatting_same (content : string) :
  _apply_text_formatting content = content.
Proof.
  unfold _apply_text_formatting. cbv zeta.
  change (Re.Lit "**") with (Re.Lit (String "*" (String "*" EmptyString))).
  change (Re.RLit "**") with (Re.RLit (String "*" (String "*" EmptyString))).
  rewrite (double_marker_same "*").
  change (Re.RLit "*") with (Re.RLit (String "*" EmptyString)).
  rewrite (single_marker_same "*").
  change (Re.RLit "_") with (Re.RLit (String "_" EmptyString)).
  apply (single_marker_same "_").
Qed.

(** ** What every segmented document looks like *)

Lemma od_get_None_keys {V} (k : string) (d : odict string V) :
  od_get k d = None ↔ k ∉ od_keys d.
Proof.
  unfold od_keys. induction d as [|[k' v'] d IH]; cbn [od_get].
  - split; [intros _ H; by apply elem_of_nil in H|done].
  - rewrite fmap_cons, not_elem_of_cons. cbn [fst]. case_decide as Hk.
    + split; [done|]. intros [? _]. done.
    + rewrite IH. tauto.
Qed.

Lemma od_set_NoDup {V} (k : string) (v : V) (d : odict string V) :
  NoDup (od_keys d) → NoDup (od_keys (od_set k v d)).
Proof.
  intros Hnd. destruct (od_get k d) as [w|] eqn:Hg.
  - by rewrite od_set_keys_mem.
  - rewrite od_set_keys_new by done. apply NoDup_app. split; [done|]. split.
    + intros x Hx Hk. apply list_elem_of_singleton in Hk as ->.
      by apply od_get_None_keys in Hg.
    + apply NoDup_singleton.
Qed.

Lemma od_set_Forall {V} (P : string * V → Prop) (k : string) (v : V)
    (d : odict string V) :
  P (k, v) → Forall P d → Forall P (od_set k v d).
Proof.
  intros Hkv. induction 1 as [|[k' v'] d Hx Hd IH]; simpl.
  - by repeat constructor.
  - case_decide as Hk; [subst k'|]; constructor; auto.
Qed.

Lemma all_chars_lstrip (P p : ascii → bool) (s : string) :
  all_chars P s = true → all_chars P (Py.lstrip_by p s) = true.
Proof.
  induction s as [|c s IH]; [done|]. simpl.
  intros [Hc Hs]%andb_true_iff. destruct (p c); [auto|]. simpl. by rewrite Hc, Hs.
Qed.

Lemma all_chars_rstrip (P p : ascii → bool) (s : string) :
  all_chars P s = true → all_chars P (Py.rstrip_by p s) = true.
Proof.
  induction s as [|c s IH]; [done|]. simpl.
  intros [Hc Hs]%andb_true_iff.
  destruct (p c && Py.is_empty (Py.rstrip_by p s)); [done|]. simpl. by rewrite Hc, IH.
Qed.

Lemma all_chars_strip (P : ascii → bool) (s : string) :
  all_chars P s = true → all_chars P (Py.strip s) = true.
Proof. intros H. unfold Py.strip. by apply all_chars_rstrip, all_chars_lstrip. Qed.

(** The pieces of a split hold no separator. *)
Lemma split_pieces (sep : ascii) (s : string) :
  Forall (λ l, all_chars (other_than sep) l = true) (Py.split sep s).
Proof.
  induction s as [|c s IH]; simpl.
  - constructor; [done|apply Forall_nil_2].
  - destruct (Ascii.eqb c sep) eqn:Hc.
    + constructor; [done|exact IH].
    + assert (other_than sep c = true) as Hoc by (unfold other_than; by rewrite Hc).
      destruct (Py.split sep s) as [|w ws].
      * constructor; [simpl; by rewrite Hoc|apply Forall_nil_2].
      * apply Forall_cons in IH as [Hw Hws]. constructor; [|done].
        simpl. by rewrite Hoc, Hw.
Qed.

Lemma split_join (sep : ascii) (parts : list string) :
  parts ≠ [] →
  Forall (λ l, all_chars (other_than sep) l = true) parts →
  Py.split sep (Py.join (String sep EmptyString) parts) = parts.
Proof.
  induction parts as [|a parts IH]; [done|]. intros _ Hall.
  apply Forall_cons in Hall as [Ha Hall].
  destruct parts as [|b parts].
  - simpl. by apply split_no_sep.
  - change (Py.join (String sep EmptyString) (a :: b :: parts))
      with (a +:+ String sep EmptyString +:+ Py.join (String sep EmptyString) (b :: parts)).
    rewrite app_cons, app_empty_l, split_at_sep by done.
    by rewrite IH.
Qed.

Lemma normalize_no_space (header_text : string) :
  has_char " " (_normalize_section_name header_text) = false.
Proof.
  unfold _normalize_section_name.
  destruct (od_get header_text normalization_map) as [v|] eqn:Hg; simpl.
  - apply od_get_elem_of in Hg.
    assert (Forall (λ kv, has_char " " kv.2 = false) normalization_map) as Hall.
    { unfold normalization_map.
      repeat (apply List.Forall_cons; [reflexivity|]). apply List.Forall_nil. }
    rewrite Forall_forall in Hall. by apply (Hall _ Hg).
  - by apply replace_no_source.
Qed.

Lemma save_section_well (st : parse_state) :
  well_segmented st →
  NoDup (od_keys (save_section st))
  ∧ Forall (λ kv, has_char " " kv.1 = false
                  ∧ Forall (trimmed Py.isspace) (Py.split Py.nl kv.2))
           (save_section st).
Proof.
  intros (Hnd & Hsecs & Hkey & Hcc). unfold save_section.
  destruct (current_content st) as [|l cc] eqn:Hcur; [done|]. cbn [is_nil].
  split; [by apply od_set_NoDup|].
  apply od_set_Forall; [|done]. split; [done|]. cbn [snd].
  rewrite strip_of_trimmed.
  - rewrite split_join; [|done|].
    + eapply Forall_impl; [exact Hcc|]. by intros x [? _].
    + eapply Forall_impl; [exact Hcc|]. by intros x [_ ?].
  - apply trimmed_join; [done|].
    eapply Forall_impl; [exact Hcc|]. by intros x [? _].
Qed.

Lemma parse_line_well (st : parse_state) (line : string) :
  all_chars (other_than Py.nl) line = true →
  well_segmented st → well_segmented (parse_line st line).
Proof.
  intros Hline Hst. unfold parse_line.
  destruct (Py.startswith "#" (Py.strip line)).
  - destruct (save_section_well st Hst) as [Hnd Hall].
    split; [done|]. split; [done|]. split; [apply normalize_no_space|].
    by apply Forall_nil.
  - destruct (Py.is_empty (Py.strip line)) eqn:He; [done|].
    destruct Hst as (Hnd & Hsecs & Hkey & Hcc).
    split; [done|]. split; [done|]. split; [done|]. simpl.
    apply Forall_app. split; [done|]. constructor; [|by apply Forall_nil].
    split; [by apply strip_trimmed|by apply all_chars_strip].
Qed.

Lemma fold_parse_well (lines : list string) (st : parse_state) :
  Forall (λ l, all_chars (other_than Py.nl) l = true) lines →
  well_segmented st → well_segmented (fold_left parse_line lines st).
Proof.
  intros Hall. revert st. induction Hall as [|l lines Hl _ IH]; intros st Hst; [done|].
  simpl. apply IH. by apply parse_line_well.
Qed.

Lemma parse_init_well : well_segmented parse_init.
Proof.
  split; [apply NoDup_nil_2|]. split; [by apply Forall_nil|].
  split; [reflexivity|by apply Forall_nil].
Qed.

Theorem X2_sections_well_formed (content : string) :
  NoDup (od_keys (_parse_content_sections content))
  ∧ Forall (λ kv, Forall (trimmed Py.isspace) (Py.split Py.nl kv.2))
           (_parse_content_sections content).
Proof.
  unfold _parse_content_sections.
  destruct (save_section_well
              (fold_left parse_line (Py.split Py.nl content) parse_init))
    as [Hnd Hall].
  { apply fold_parse_well; [apply split_pieces|apply parse_init_well]. }
  split; [done|]. eapply Forall_impl; [exact Hall|]. by intros kv [_ ?].
Qed.

Theorem X3_section_keys_without_blank :
  (∀ header_text, has_char " " (_normalize_section_name header_text) = false)
  ∧ (∀ content,
       Forall (λ k, has_char " " k = false) (od_keys (_parse_content_sections content))).
Proof.
  split; [apply normalize_no_space|]. intros content.
  unfold _parse_content_sections.
  destruct (save_section_well
              (fold_left parse_line (Py.split Py.nl content) parse_init))
    as [_ Hall].
  { apply fold_parse_well; [apply split_pieces|apply parse_init_well]. }
  unfold od_keys. apply Forall_fmap.
  eapply Forall_impl; [exact Hall|]. by intros kv [? _].
Qed.

(** ** The table of contents *)

Lemma toc_loop_sections (sections : odict string FormattedSection) (i : nat)
    (section_order : list string) :
  toc_section <$> toc_loop sections i section_order
  = filter (λ name, is_Some (od_get name sections)) section_order.
Proof.
  revert i. induction section_order as [|name rest IH]; intros i; [done|].
  cbn [toc_loop]. destruct (od_get name sections) as [sec|] eqn:Hg.
  - rewrite filter_cons_True by (rewrite Hg; eauto).
    rewrite fmap_cons. cbn [toc_section]. by rewrite IH.
  - rewrite filter_cons_False by (rewrite Hg; by intros [? ?]). apply IH.
Qed.

Lemma toc_loop_entries (sections : odict string FormattedSection) (i : nat)
    (section_order : list string) :
  Forall (λ e, i < toc_page e
               ∧ section_order !! (toc_page e - 1 - i) = Some (toc_section e)
               ∧ (s_word_count <$> od_get (toc_section e) sections)
                 = Some (toc_word_count e)
               ∧ toc_title e = Py.title (Py.replace "_" " " (toc_section e)))
         (toc_loop sections i section_order).
Proof.
  revert i. induction section_order as [|name rest IH]; intros i; [by apply Forall_nil|].
  cbn [toc_loop].
  assert (Hrest : Forall (λ e, i < toc_page e
               ∧ (name :: rest) !! (toc_page e - 1 - i) = Some (toc_section e)
               ∧ (s_word_count <$> od_get (toc_section e) sections)
                 = Some (toc_word_count e)
               ∧ toc_title e = Py.title (Py.replace "_" " " (toc_section e)))
         (toc_loop sections (S i) rest)).
  { eapply Forall_impl; [apply IH|]. intros e (Hlt & Hlook & Hwc & Ht).
    split; [lia|]. split; [|done].
    replace (toc_page e - 1 - i) with (S (toc_page e - 1 - S i)) by lia. done. }
  destruct (od_get name sections) as [sec|] eqn:Hg; [|done].
  constructor; [|done]. cbn [toc_page toc_section toc_word_count toc_title].
  split; [lia|]. split; [|by rewrite Hg].
  replace (i + 1 - 1 - i) with 0 by lia. done.
Qed.

Lemma toc_loop_pages (sections : odict string FormattedSection) (i : nat)
    (section_order : list string) :
  StronglySorted lt (toc_page <$> toc_loop sections i section_order).
Proof.
  revert i. induction section_order as [|name rest IH]; intros i; [constructor|].
  cbn [toc_loop]. destruct (od_get name sections) as [sec|]; [|apply IH].
  rewrite fmap_cons. constructor; [apply IH|]. cbn [toc_page].
  apply Forall_fmap. eapply Forall_impl; [apply (toc_loop_entries sections (S i) rest)|].
  intros e [Hlt _]. simpl. lia.
Qed.

Theorem X4_table_of_contents (sections : odict string FormattedSection)
    (template_config : TemplateConfig) :
  let toc := _generate_table_of_contents sections template_config in
  toc_section <$> toc
  = filter (λ name, is_Some (od_get name sections)) (tc_sections template_config)
  ∧ Forall (λ e, 1 ≤ toc_page e
                 ∧ tc_sections template_config !! (toc_page e - 1) = Some (toc_section e)
                 ∧ (s_word_count <$> od_get (toc_section e) sections)
                   = Some (toc_word_count e))
           toc
  ∧ StronglySorted lt (toc_page <$> toc).
Proof.
  cbv zeta. unfold _generate_table_of_contents. split; [apply toc_loop_sections|].
  split; [|apply toc_loop_pages].
  eapply Forall_impl; [apply toc_loop_entries|]. intros e (Hlt & Hlook & Hwc & _).
  split; [lia|]. split; [|done]. by rewrite Nat.sub_0_r in Hlook.
Qed.

(** ** Counts *)

Lemma length_concat_sum {A} (ls : list (list A)) :
  length (concat ls) = sum_list (length <$> ls).
Proof.
  induction ls as [|l ls IH]; [done|]. simpl. by rewrite length_app, IH.
Qed.

Theorem X5_counts_agree (sections : odict string FormattedSection) (style_name : string) :
  let statistics := _calculate_content_statistics sections in
  let citation_info := _process_citations sections style_name in
  total_citations statistics = ci_total_citations citation_info
  ∧ ci_unique_citations citation_info = length (ci_citations citation_info)
  ∧ total_words statistics = sum_list (od_values (section_breakdown statistics))
  ∧ od_keys (section_breakdown statistics) = od_keys sections
  ∧ total_sections statistics = length (section_breakdown statistics).
Proof.
  cbv zeta. unfold _calculate_content_statistics, _process_citations, all_citations_of.
  cbn [total_citations ci_total_citations ci_unique_citations ci_citations
       total_words section_breakdown total_sections].
  unfold od_values, od_keys.
  rewrite length_concat_sum, !length_fmap, <- !list_fmap_compose.
  repeat split.
Qed.

(** ** Sections in, sections out *)

Lemma od_set_new {V} (k : string) (v : V) (d : odict string V) :
  od_get k d = None → od_set k v d = d ++ [(k, v)].
Proof.
  induction d as [|[k' v'] d IH]; cbn [od_get od_set]; [done|].
  case_decide; [done|]. intros Hg. by rewrite IH.
Qed.

(** Formatting keeps the sections, in order, each under its name. *)
Lemma apply_formatting_loop_spec (self : TemplateProcessor)
    (items : list (string * string)) (acc fs : odict string FormattedSection) :
  NoDup (od_keys acc ++ items.*1) →
  apply_formatting_loop self items acc = inr fs →
  ∃ secs,
    fs = acc ++ secs
    ∧ Forall2 (λ item sec, item.1 = sec.1 ∧ format_section self item.2 = inr sec.2)
              items secs.
Proof.
  revert acc. induction items as [|[name content] items IH]; intros acc Hnd; simpl.
  - intros [= <-]. exists []. by rewrite app_nil_r.
  - destruct (format_section self content) as [e|sec] eqn:Hsec; cbn [bind]; [done|].
    intros Hloop.
    rewrite fmap_cons in Hnd. cbn [fst] in Hnd.
    assert (od_get name acc = None) as Hfresh.
    { apply od_get_None_keys. apply NoDup_app in Hnd as (_ & Hdisj & _).
      intros Hin. apply (Hdisj _ Hin). left. }
    rewrite od_set_new in Hloop by done.
    destruct (IH (acc ++ [(name, sec)])) as (secs & -> & Hall); [|done|].
    + unfold od_keys in *. rewrite fmap_app, <- app_assoc. done.
    + exists ((name, sec) :: secs). rewrite <- app_assoc. split; [done|].
      by constructor.
Qed.

Lemma split_first_prefix (sep : ascii) (s w : string) (ws : list string) :
  Py.split sep s = w :: ws → ∃ rest, s = w +:+ rest.
Proof.
  revert w ws. induction s as [|c s IH]; intros w ws; simpl.
  - intros [= <- <-]. by exists EmptyString.
  - destruct (Ascii.eqb c sep).
    + intros [= <- <-]. by eexists.
    + destruct (Py.split sep s) as [|w0 ws0] eqn:Hs.
      * intros [= <- <-]. exists s. by rewrite app_cons, app_empty_l.
      * intros [= <- <-]. destruct (IH w0 ws0 eq_refl) as [rest ->].
        exists rest. by rewrite app_cons.
Qed.

Lemma split_ws_nonempty (c : ascii) (s : string) :
  Py.isspace c = false → Py.split_ws (String c s) ≠ [].
Proof.
  intros Hc. simpl. rewrite Hc. destruct s as [|d s]; [done|].
  destruct (Py.isspace d); [done|]. by destruct (Py.split_ws (String d s)).
Qed.

Lemma lstrip_by_shorter (p : ascii → bool) (u : string) :
  String.length (Py.lstrip_by p u) ≤ String.length u.
Proof. induction u as [|d u IH]; simpl; [lia|]. destruct (p d); simpl; lia. Qed.

Lemma split_not_nil (sep : ascii) (s : string) : Py.split sep s ≠ [].
Proof.
  destruct s as [|c s]; simpl; [done|].
  destruct (Ascii.eqb c sep); [done|]. by destruct (Py.split sep s).
Qed.

Lemma body_has_word (body : string) :
  Forall (trimmed Py.isspace) (Py.split Py.nl body) → 1 ≤ length (Py.split_ws body).
Proof.
  intros Hall. destruct (Py.split Py.nl body) as [|w ws] eqn:Hs.
  { by apply split_not_nil in Hs. }
  apply Forall_cons in Hall as [(Hne & Hl & _) _].
  destruct (split_first_prefix _ _ _ _ Hs) as [rest ->].
  destruct w as [|c w]; [done|]. simpl in Hl.
  destruct (Py.isspace c) eqn:Hc.
  { apply (f_equal String.length) in Hl. simpl in Hl.
    pose proof (lstrip_by_shorter Py.isspace w). lia. }
  rewrite app_cons.
  pose proof (split_ws_nonempty c (w +:+ rest) Hc) as Hw.
  destruct (Py.split_ws _); [done|simpl; lia].
Qed.

Lemma format_section_content (self : TemplateProcessor) (content : string)
    (sec : FormattedSection) :
  format_section self content = inr sec →
  s_content sec = content ∧ s_word_count sec = length (Py.split_ws content).
Proof.
  unfold format_section. cbv zeta. rewrite text_formatting_same.
  destruct (_extract_citations _ _); cbn [bind]; [done|].
  destruct (_extract_references _ _); cbn [bind]; [done|].
  by intros [= <-].
Qed.

Theorem X1_formatting_keeps_text (content : string) :
  _apply_text_formatting content = content
  ∧ ∀ self sec,
      format_section self content = inr sec →
      s_content sec = content ∧ s_word_count sec = length (Py.split_ws content).
Proof.
  split; [apply text_formatting_same|].
  intros self sec Hsec. by apply (format_section_content self).
Qed.

Lemma X1_formatting_keeps_text_witness :
  s_content
    {| s_content := "a **b** *c* _d_ e*f"; s_word_count := 5; s_citations := [];
       s_equations := []; s_references := []; s_formatting_applied := true |}
  = "a **b** *c* _d_ e*f"
  ∧ s_word_count
      {| s_content := "a **b** *c* _d_ e*f"; s_word_count := 5; s_citations := [];
         s_equations := []; s_references := []; s_formatting_applied := true |}
    = length (Py.split_ws "a **b** *c* _d_ e*f").
Proof.
  destruct (X1_formatting_keeps_text "a **b** *c* _d_ e*f") as [_ Hsec].
  apply (Hsec __init__). reflexivity.
Defined.

Lemma parse_well_formed (content : string) :
  NoDup (od_keys (_parse_content_sections content))
  ∧ Forall (λ kv, has_char " " kv.1 = false
                  ∧ Forall (trimmed Py.isspace) (Py.split Py.nl kv.2))
           (_parse_content_sections content).
Proof.
  unfold _parse_content_sections. apply save_section_well.
  apply fold_parse_well; [apply split_pieces|apply parse_init_well].
Qed.

Theorem X6_request_keeps_sections (self : TemplateProcessor) (env : environment)
    (content style_name template_type : string) (result : ProcessingResult) :
  process_content self env content style_name template_type = inr result →
  Forall2 (λ parsed formatted,
             parsed.1 = formatted.1
             ∧ s_content formatted.2 = parsed.2
             ∧ 1 ≤ s_word_count formatted.2)
          (_parse_content_sections content) (pr_sections result)
  ∧ total_sections (pr_statistics result) = length (_parse_content_sections content)
  ∧ Forall (λ e, toc_section e ∈ od_keys (_parse_content_sections content))
           (pr_table_of_contents result).
Proof.
  unfold process_content.
  destruct (templates self !! template_type) as [template_config|]; [|done].
  cbv zeta.
  destruct (_apply_formatting self (_parse_content_sections content) style_name)
    as [e|fs] eqn:Hfs; cbn [bind]; [done|].
  intros [= <-]. cbn [pr_sections pr_statistics pr_table_of_contents].
  destruct (parse_well_formed content) as [Hnd Hbodies].
  destruct (apply_formatting_loop_spec self (_parse_content_sections content) [] fs)
    as (secs & -> & Hall); [done|done|].
  rewrite app_nil_l in *.
  assert (Hkeys : od_keys secs = od_keys (_parse_content_sections content)).
  { unfold od_keys. clear -Hall. induction Hall as [|[] [] ? ? [? _] _ IH]; [done|].
    rewrite !fmap_cons. simpl in *. by f_equal. }
  split; [|split].
  - clear Hkeys Hnd Hfs. revert Hbodies.
    induction Hall as [|[n b] [n' sec] items secs' [Hn Hsec] _ IH]; intros Hb; [constructor|].
    apply Forall_cons in Hb as [[_ Hb1] Hb]. constructor; [|by apply IH].
    simpl in *. apply format_section_content in Hsec as [-> ->].
    split; [done|]. split; [done|]. by apply body_has_word.
  - unfold _calculate_content_statistics. cbn [total_sections].
    apply (f_equal length) in Hkeys. unfold od_keys in Hkeys.
    by rewrite !length_fmap in Hkeys.
  - unfold _generate_table_of_contents.
    apply Forall_forall. intros e He.
    assert (toc_section e ∈ toc_section <$> toc_loop secs 0 (tc_sections template_config))
      as Hin by (by apply list_elem_of_fmap_2).
    rewrite toc_loop_sections in Hin. apply list_elem_of_filter in Hin as [[sec Hsec] _].
    rewrite <- Hkeys. apply od_get_elem_of in Hsec.
    unfold od_keys. by apply (list_elem_of_fmap_2 fst) in Hsec.
Qed.

Lemma X6_request_keeps_sections_witness :
  ∃ result,
    process_content __init__ {| _get_timestamp := "t"; _generate_processing_id := "u" |}
      (document ["# Title"; "A Study"; "# Methods"; "We  measure *twice*."])
      "ieee" "article" = inr result
    ∧ od_keys (pr_sections result) = ["title"; "methodology"]
    ∧ total_sections (pr_statistics result)
      = length (_parse_content_sections
                  (document ["# Title"; "A Study"; "# Methods"; "We  measure *twice*."])).
Proof.
  eexists. split; [vm_compute; reflexivity|]. split; [reflexivity|].
  apply (X6_request_keeps_sections __init__
           {| _get_timestamp := "t"; _generate_processing_id := "u" |}
           (document ["# Title"; "A Study"; "# Methods"; "We  measure *twice*."])
           "ieee" "article").
  vm_compute. reflexivity.
Defined.

(** ** Matches come left to right and do not overlap *)

Lemma scan_in_order (r : Re.regex) (fuel : nat) :
  ∀ pos s, StronglySorted ends_before (Re.scan r fuel pos s).
Proof.
  induction fuel as [|fuel IH]; intros pos s; cbn [Re.scan]; [constructor|].
  assert (Hnext : StronglySorted ends_before
                    (if Py.is_empty s then [] else Re.scan r fuel (S pos) (Re.tail s))).
  { destruct (Py.is_empty s); [constructor|apply IH]. }
  assert (Hnext_starts : Forall (λ m, S pos ≤ Re.m_start m)
                    (if Py.is_empty s then [] else Re.scan r fuel (S pos) (Re.tail s))).
  { destruct (Py.is_empty s); [by apply Forall_nil|apply scan_starts]. }
  destruct (Re.match_at r pos s) as [[[e s'] c]|]; [|done].
  destruct (pos <? e) eqn:Hlt.
  - constructor; [apply IH|].
    eapply Forall_impl; [apply (scan_starts r fuel e s')|].
    intros m Hm. unfold ends_before. done.
  - apply Nat.ltb_ge in Hlt. constructor; [done|].
    eapply Forall_impl; [exact Hnext_starts|].
    intros m Hm. unfold ends_before. cbn in *. lia.
Qed.

Lemma finditer_in_order (r : Re.regex) (content : string) :
  StronglySorted ends_before (Re.finditer r content).
Proof. apply scan_in_order. Qed.

Lemma StronglySorted_fmap_rel {A B} (R : A → A → Prop) (S : B → B → Prop)
    (f : A → B) (l : list A) :
  (∀ x y, R x y → S (f x) (f y)) →
  StronglySorted R l → StronglySorted S (f <$> l).
Proof.
  intros HRS. induction 1 as [|x l Hl IH Hx]; [constructor|].
  rewrite fmap_cons. constructor; [done|].
  apply Forall_fmap. eapply Forall_impl; [exact Hx|]. intros y. apply HRS.
Qed.

Lemma StronglySorted_imap_rel {A B} (R : A → A → Prop) (S : B → B → Prop)
    (f : nat → A → B) (l : list A) :
  (∀ i j x y, R x y → S (f i x) (f j y)) →
  StronglySorted R l → StronglySorted S (imap f l).
Proof.
  intros HRS Hl. revert f HRS. induction Hl as [|x l Hl IH Hx]; intros f HRS; [constructor|].
  rewrite imap_cons. constructor.
  - apply IH. intros i j. apply HRS.
  - apply Forall_forall. intros b Hb.
    apply elem_of_lookup_imap in Hb as (i & y & -> & Hy).
    apply list_elem_of_lookup_2 in Hy. rewrite Forall_forall in Hx.
    apply HRS. by apply Hx.
Qed.

Theorem X7_equations_in_order (self : TemplateProcessor) (content : string) :
  let eqs := _extract_equations self content in
  StronglySorted span_before
    (e_position <$> filter (λ e, is_inline e = true) eqs)
  ∧ StronglySorted span_before
      (e_position <$> filter (λ e, is_display e = true) eqs)
  ∧ ∃ inlines displays,
      eqs = inlines ++ displays
      ∧ Forall (λ e, e_type e = inline) inlines
      ∧ Forall (λ e, e_type e = display) displays.
Proof.
  cbv zeta. unfold _extract_equations. cbv zeta. rewrite !filter_app.
  rewrite (filter_imap_all is_inline), (filter_imap_none is_inline) by done.
  rewrite (filter_imap_none is_display), (filter_imap_all is_display) by done.
  rewrite app_nil_r, app_nil_l. split; [|split].
  - apply StronglySorted_fmap_rel with (R := λ e1 e2, span_before (e_position e1) (e_position e2));
      [done|].
    apply StronglySorted_imap_rel with (R := ends_before); [done|apply finditer_in_order].
  - apply StronglySorted_fmap_rel with (R := λ e1 e2, span_before (e_position e1) (e_position e2));
      [done|].
    apply StronglySorted_imap_rel with (R := ends_before); [done|apply finditer_in_order].
  - eexists _, _. split; [reflexivity|]. split.
    + apply Forall_forall. intros e He.
      by apply elem_of_lookup_imap in He as (i & m & -> & _).
    + apply Forall_forall. intros e He.
      by apply elem_of_lookup_imap in He as (i & m & -> & _).
Qed.

(** ** What a citation carries *)

Lemma digit_val_range (c : ascii) :
  Py.isdigit c = true → (0 ≤ Py.digit_val c ≤ 9)%Z.
Proof.
  destruct c as [[] [] [] [] [] [] [] []]; vm_compute; intros H;
    try discriminate H; split; discriminate.
Qed.

Lemma int_digits_nonneg (d : string) :
  ∀ acc after_digit z,
    (0 ≤ acc)%Z → Py.int_digits acc after_digit d = Some z → (0 ≤ z)%Z.
Proof.
  induction d as [|c d IH]; intros acc b z Hacc; simpl.
  - destruct b; [|done]. intros [= <-]. done.
  - destruct (Py.isdigit c) eqn:Hc.
    + apply IH. pose proof (digit_val_range c Hc). lia.
    + destruct (Ascii.eqb c "_" && b); [|done].
      destruct d as [|c' d]; [done|]. destruct (Py.isdigit c'); [|done]. by apply IH.
Qed.

Lemma int_digits_bound (d : string) :
  ∀ acc after_digit z,
    (0 ≤ acc)%Z → all_chars Py.isdigit d = true →
    Py.int_digits acc after_digit d = Some z →
    (z < (acc + 1) * 10 ^ Z.of_nat (String.length d))%Z.
Proof.
  induction d as [|c d IH]; intros acc b z Hacc Hd; simpl.
  - destruct b; [|done]. intros [= <-]. lia.
  - simpl in Hd. apply andb_true_iff in Hd as [Hc Hd]. rewrite Hc.
    intros Hz. pose proof (digit_val_range c Hc) as Hv.
    apply IH in Hz; [|lia|done].
    rewrite Nat2Z.inj_succ, Z.pow_succ_r by lia.
    assert (0 < 10 ^ Z.of_nat (String.length d))%Z by (apply Z.pow_pos_nonneg; lia).
    nia.
Qed.

Lemma int_of_digits_value (d : string) (z : Z) :
  all_chars Py.isdigit d = true → Py.int d = inr z →
  Py.int_digits 0 false d = Some z.
Proof.
  intros Hd. unfold Py.int.
  assert (all_chars (λ c, negb (Py.isspace_int c)) d = true) as Hns.
  { eapply all_chars_impl; [|done]. intros c Hc. by rewrite digit_not_space_int. }
  rewrite lstrip_by_none, rstrip_by_none by done.
  destruct d as [|c d]; [done|].
  pose proof Hd as Hd'. simpl in Hd'. apply andb_true_iff in Hd' as [Hc _].
  destruct (digit_not_sign c Hc) as [-> ->].
  destruct (Py.int_digits 0 false (String c d)); [by intros [= ->]|done].
Qed.

Lemma number_token_value (t : string) (z : Z) :
  number_token t → Py.int (Py.strip t) = inr z → (0 ≤ z)%Z.
Proof.
  intros (ws & d & -> & Hws & Hd & Hne).
  assert (Py.strip (ws +:+ d) = d) as ->.
  { unfold Py.strip. rewrite lstrip_by_all by done. fold (Py.strip d). by apply strip_digits. }
  intros Hz. apply int_of_digits_value in Hz; [|done].
  by apply (int_digits_nonneg d 0 false).
Qed.

Lemma matches_rep4_length (p : ascii → bool) (w : string) :
  matches (Re.Rep 4 (Re.Cls p)) w → String.length w = 4.
Proof.
  simpl. intros H.
  repeat match goal with
         | H : matches (Re.Seq _ _) _ |- _ => inversion H; subst; clear H
         | H : matches (Re.Cls _) _ |- _ => inversion H; subst; clear H
         | H : matches Re.Eps _ |- _ => inversion H; subst; clear H
         end.
  reflexivity.
Qed.

Lemma for_each_Forall2 {A B} (f : A → raises B) (l : list A) (bs : list B) :
  for_each f l = inr bs → Forall2 (λ a b, f a = inr b) l bs.
Proof.
  revert bs. induction l as [|a l IH]; intros bs; simpl.
  - intros [= <-]. constructor.
  - destruct (f a) as [e|b0] eqn:Hfa; simpl; [done|].
    destruct (for_each f l) as [e|bs0] eqn:Hl; simpl; [done|].
    intros [= <-]. constructor; [done|]. by apply IH.
Qed.

Lemma StronglySorted_Forall2 {A B} (R : A → A → Prop) (S : B → B → Prop)
    (Q : A → B → Prop) (l : list A) (bs : list B) :
  (∀ a a' b b', Q a b → Q a' b' → R a a' → S b b') →
  StronglySorted R l → Forall2 Q l bs → StronglySorted S bs.
Proof.
  intros HRS Hl Hq. revert Hl. induction Hq as [|a b l bs Hab Hq IH]; intros Hl; [constructor|].
  apply StronglySorted_inv in Hl as [Hl Ha]. constructor; [by apply IH|].
  apply Forall_forall. intros b' Hb'.
  apply list_elem_of_lookup_1 in Hb' as [i Hi].
  destruct (Forall2_lookup_r _ _ _ _ _ Hq Hi) as (a' & Ha' & Hq').
  apply list_elem_of_lookup_2 in Ha'. rewrite Forall_forall in Ha.
  apply (HRS a a' b b'); [done|done|by apply Ha].
Qed.

Lemma for_each_finditer_Forall {B} G r content (f : Re.rmatch_obj → raises B)
    (P : B → Prop) (bs : list B) :
  groups_ok G r →
  (∀ m b, match_ok G r content m → f m = inr b → P b) →
  for_each f (Re.finditer r content) = inr bs → Forall P bs.
Proof.
  intros Hg Hf Hbs. apply Forall_forall. intros b Hb.
  destruct (for_each_elem _ _ _ _ Hbs Hb) as (m & Hm & Hfm).
  pose proof (finditer_sound _ _ content Hg) as Hall.
  rewrite Forall_forall in Hall. by apply (Hf m b); [apply Hall|].
Qed.

Lemma for_each_finditer_in_order {B} r content (f : Re.rmatch_obj → raises B)
    (position : B → nat * nat) (bs : list B) :
  (∀ m b, f m = inr b → position b = Re.span m) →
  for_each f (Re.finditer r content) = inr bs →
  StronglySorted span_before (position <$> bs).
Proof.
  intros Hf Hbs.
  apply (StronglySorted_fmap_rel (λ b b', span_before (position b) (position b')));
    [done|].
  eapply (StronglySorted_Forall2 ends_before _ (λ m b, f m = inr b));
    [|apply finditer_in_order|by apply for_each_Forall2].
  intros m m' b b' Hb Hb' Hmm'. unfold span_before.
  rewrite (Hf _ _ Hb), (Hf _ _ Hb'). exact Hmm'.
Qed.

(** X8. The citations of a text come as the numeric ones followed by the
    author-year ones; each carries the text of its span; a numeric
    citation lists at least one number and none is negative; the year of
    an author-year citation lies between 0 and 9999; within each kind the
    spans come left to right and do not overlap. *)
Theorem X8_citation_values (content : string) (cs : list citation) :
  _extract_citations __init__ content = inr cs →
  ∃ numeric author_year,
    cs = numeric ++ author_year
    ∧ Forall (λ c, ∃ text numbers position,
                c = NumericCitation text numbers position
                ∧ text = Py.slice position.1 position.2 content
                ∧ numbers ≠ [] ∧ Forall (λ n, (0 ≤ n)%Z) numbers) numeric
    ∧ Forall (λ c, ∃ text author year position,
                c = AuthorYearCitation text author year position
                ∧ text = Py.slice position.1 position.2 content
                ∧ (0 ≤ year ≤ 9999)%Z) author_year
    ∧ StronglySorted span_before (citation_position <$> numeric)
    ∧ StronglySorted span_before (citation_position <$> author_year).
Proof.
  unfold _extract_citations. cbv zeta.
  destruct (for_each _ (Re.finditer (citations_numeric _) _)) as [e|numeric] eqn:Hnum;
    cbn [bind]; [done|].
  destruct (for_each _ (Re.finditer (citations_author_year _) _)) as [e|ay] eqn:Hay;
    cbn [bind]; [done|].
  intros [= <-]. exists numeric, ay. split; [done|]. repeat split.
  - eapply for_each_finditer_Forall; [apply numeric_groups_ok| |exact Hnum].
    intros m c Hm Hc. cbv beta in Hc.
    destruct (for_each _ (Py.split _ _)) as [e|numbers] eqn:Hns; simpl in Hc; [done|].
    injection Hc as <-. exists (Re.group0 content m), numbers, (Re.span m).
    split; [done|]. split; [done|].
    assert (Forall number_token (Py.split "," (Re.group content m 1))) as Htoks.
    { apply numeric_inner_tokens. by apply (group_ok _ _ _ _ 1 Hm). }
    apply for_each_Forall2 in Hns. split.
    + intros ->. apply Forall2_nil_inv_r in Hns. by apply split_not_nil in Hns.
    + apply Forall_forall. intros z Hz.
      apply list_elem_of_lookup_1 in Hz as [i Hi].
      destruct (Forall2_lookup_r _ _ _ _ _ Hns Hi) as (t & Ht & Hint).
      apply list_elem_of_lookup_2 in Ht. rewrite Forall_forall in Htoks.
      apply (number_token_value t); [by apply Htoks|done].
  - eapply for_each_finditer_Forall; [apply author_year_groups_ok| |exact Hay].
    intros m c Hm Hc. cbv beta in Hc.
    destruct (Py.int _) as [e|year] eqn:Hyear; simpl in Hc; [done|].
    injection Hc as <-.
    exists (Re.group0 content m), (Re.group content m 1), year, (Re.span m).
    split; [done|]. split; [done|].
    assert (matches (Re.Rep 4 cls_digit) (Re.group content m 2)) as Hy.
    { by apply (group_ok _ _ _ _ 2 Hm). }
    pose proof (matches_rep4_length _ _ Hy) as Hlen.
    apply matches_rep4_cls in Hy as [Hd _].
    apply int_of_digits_value in Hyear; [|done].
    pose proof (int_digits_nonneg _ 0 false year ltac:(lia) Hyear).
    pose proof (int_digits_bound _ 0 false year ltac:(lia) Hd Hyear) as Hb.
    rewrite Hlen in Hb. change (10 ^ Z.of_nat 4)%Z with 10000%Z in Hb. lia.
  - eapply for_each_finditer_in_order; [|exact Hnum].
    intros m c Hc. cbv beta in Hc.
    destruct (for_each _ (Py.split _ _)); simpl in Hc; [done|]. by injection Hc as <-.
  - eapply for_each_finditer_in_order; [|exact Hay].
    intros m c Hc. cbv beta in Hc.
    destruct (Py.int _); simpl in Hc; [done|]. by injection Hc as <-.
Qed.

Lemma X8_citation_values_witness :
  ∃ cs,
    _extract_citations __init__ "As [1, 22] and (Smith et al., 2020) show." = inr cs
    ∧ ∃ numeric author_year,
        cs = numeric ++ author_year
        ∧ Forall (λ c, ∃ text numbers position,
                    c = NumericCitation text numbers position
                    ∧ text = Py.slice position.1 position.2
                               "As [1, 22] and (Smith et al., 2020) show."
                    ∧ numbers ≠ [] ∧ Forall (λ n, (0 ≤ n)%Z) numbers) numeric
        ∧ Forall (λ c, ∃ text author year position,
                    c = AuthorYearCitation text author year position
                    ∧ text = Py.slice position.1 position.2
                               "As [1, 22] and (Smith et al., 2020) show."
                    ∧ (0 ≤ year ≤ 9999)%Z) author_year
        ∧ StronglySorted span_before (citation_position <$> numeric)
        ∧ StronglySorted span_before (citation_position <$> author_year).
Proof.
  eexists. split; [vm_compute; reflexivity|].
  apply (X8_citation_values "As [1, 22] and (Smith et al., 2020) show.").
  vm_compute. reflexivity.
Defined.

(** ** Figure and table references *)

Lemma rmatch_lit (w : string) :
  ∀ pos s c k o,
    Re.rmatch (Re.Lit w) pos s c k = Some o →
    ∃ s', s = w +:+ s' ∧ k (pos + String.length w) s' c = Some o.
Proof.
  induction w as [|a w IH]; intros pos s c k o; cbn [Re.Lit].
  - rewrite rmatch_eps. intros Hk. exists s. by rewrite app_empty_l, Nat.add_0_r.
  - rewrite rmatch_seq, rmatch_chr. destruct s as [|b s]; [done|].
    destruct (Ascii.eqb b a) eqn:Hb; [|done]. apply Ascii.eqb_eq in Hb as ->.
    intros Hk. apply IH in Hk as (s' & -> & Hk). exists s'. split; [done|].
    simpl. by rewrite Nat.add_succ_r.
Qed.

Lemma star_cls_longest (p : ascii → bool) (k : Re.cont) :
  (∀ pos s c, is_Some (k pos s c)) →
  ∀ fuel pos s c,
    String.length s ≤ fuel →
    Re.star_loop (Re.rmatch (Re.Cls p)) fuel pos s c k
    = k (pos + span_len p s) (Py.lstrip_by p s) c.
Proof.
  intros Hk fuel. induction fuel as [|fuel IH]; intros pos s c Hlen.
  - destruct s; [|simpl in Hlen; lia]. simpl. by rewrite Nat.add_0_r.
  - cbn [Re.star_loop]. rewrite rmatch_cls.
    destruct s as [|b s]; cbn [span_len Py.lstrip_by].
    + by rewrite Nat.add_0_r.
    + destruct (p b) eqn:Hb.
      * assert ((pos <? S pos) = true) as -> by (apply Nat.ltb_lt; lia).
        rewrite IH by (simpl in Hlen; lia).
        rewrite Nat.add_succ_r. simpl.
        by destruct (Hk (S (pos + span_len p s)) (Py.lstrip_by p s) c) as [o ->].
      * by rewrite Nat.add_0_r.
Qed.

Lemma plus_cls_longest (p : ascii → bool) (k : Re.cont) (pos : nat) (s : string)
    (c : Re.captures) :
  (∀ pos s c, is_Some (k pos s c)) →
  Re.rmatch (Re.Plus (Re.Cls p)) pos s c k
  = if 0 <? span_len p s then k (pos + span_len p s) (Py.lstrip_by p s) c else None.
Proof.
  intros Hk. unfold Re.Plus. rewrite rmatch_seq, rmatch_cls.
  destruct s as [|b s]; [done|]. cbn [span_len Py.lstrip_by].
  destruct (p b) eqn:Hb; [|done].
  rewrite rmatch_star, star_cls_longest by done. simpl. by rewrite Nat.add_succ_r.
Qed.

Lemma lstrip_by_stops (p : ascii → bool) (s : string) :
  first_is p (Py.lstrip_by p s) = false.
Proof.
  induction s as [|b s IH]; [done|]. simpl. destruct (p b) eqn:Hb; [done|].
  simpl. by rewrite Hb.
Qed.

Lemma span_nonempty (p : ascii → bool) (w : string) (n : nat) :
  String.length w = n → 0 < n → Py.is_empty w = false.
Proof. intros <-. destruct w; simpl; [lia|done]. Qed.

Lemma reference_match_some (word : string) (pos : nat) (s : string) (e : nat)
    (s' : string) (c : Re.captures) :
  Re.match_at (Re.Seq (Re.Lit word) (Re.Seq (Re.Plus cls_space)
                                            (Re.Grp 1 (Re.Plus cls_digit)))) pos s
  = Some (e, s', c) →
  ∃ ws d,
    s = (word +:+ ws +:+ d) +:+ s'
    ∧ all_chars Py.isspace ws = true ∧ Py.is_empty ws = false
    ∧ all_chars Py.isdigit d = true ∧ Py.is_empty d = false
    ∧ first_is Py.isdigit s' = false
    ∧ e = pos + String.length (word +:+ ws +:+ d)
    ∧ c = [(1, (pos + String.length (word +:+ ws),
                pos + String.length (word +:+ ws) + String.length d))].
Proof.
  unfold Re.match_at. rewrite rmatch_seq. intros Hm.
  apply rmatch_lit in Hm as (s1 & -> & Hm).
  rewrite rmatch_seq in Hm. unfold cls_space, cls_digit in Hm.
  rewrite plus_cls_greedy in Hm.
  2:{ intros p b t c0 Hb. rewrite rmatch_grp. unfold Re.Plus.
      rewrite rmatch_seq, rmatch_cls.
      destruct (Py.isdigit b) eqn:Hd; [|done].
      apply digit_not_space in Hd. congruence. }
  destruct (0 <? span_len Py.isspace s1) eqn:Hws; [|done]. apply Nat.ltb_lt in Hws.
  rewrite rmatch_grp in Hm. rewrite plus_cls_longest in Hm by (unfold Re.accept; eauto).
  destruct (0 <? span_len Py.isdigit (Py.lstrip_by Py.isspace s1)) eqn:Hd; [|done].
  apply Nat.ltb_lt in Hd. unfold Re.accept in Hm. injection Hm as <- <- <-.
  destruct (span_decompose Py.isspace s1) as (ws & Hs1 & Hwlen & Hwall).
  destruct (span_decompose Py.isdigit (Py.lstrip_by Py.isspace s1))
    as (d & Hs2 & Hdlen & Hdall).
  exists ws, d. repeat split.
  - rewrite Hs1 at 1. rewrite Hs2 at 1. by rewrite !app_assoc_str.
  - done.
  - by apply (span_nonempty Py.isspace ws _ Hwlen).
  - done.
  - by apply (span_nonempty Py.isdigit d _ Hdlen).
  - apply lstrip_by_stops.
  - rewrite !length_app_str, Hwlen, Hdlen. by rewrite !Nat.add_assoc.
  - rewrite !length_app_str, Hwlen, Hdlen. by rewrite !Nat.add_assoc.
Qed.

Lemma finditer_reference_occurrences (word content : string) :
  Forall (λ m, ∃ ws d, reference_occurrence word content m ws d)
         (Re.finditer (Re.Seq (Re.Lit word) (Re.Seq (Re.Plus cls_space)
                                                    (Re.Grp 1 (Re.Plus cls_digit))))
                      content).
Proof.
  apply (scan_forall _ content _) with (pre := EmptyString); [|done|done].
  intros pos s pre e s' c Hwhole Hpos Hm.
  apply reference_match_some in Hm
    as (ws & d & -> & Hws & Hwne & Hd & Hdne & Hpost & -> & ->). split.
  - exists ws, d, pre, s'. repeat split; try done.
    unfold reference_target. rewrite <- Hpos, !length_app_str.
    repeat f_equal; lia.
  - by exists (word +:+ ws +:+ d).
Qed.

Lemma reference_occurrence_texts (word content : string) (m : Re.rmatch_obj)
    (ws d : string) :
  reference_occurrence word content m ws d →
  Re.group0 content m = word +:+ ws +:+ d ∧ Re.group content m 1 = d.
Proof.
  intros (pre & post & -> & _ & _ & _ & _ & _ & ->).
  unfold Re.group0, Re.group, reference_target. simpl. split.
  - apply slice_middle.
  - replace (pre +:+ (word +:+ ws +:+ d) +:+ post)
      with ((pre +:+ word +:+ ws) +:+ d +:+ post) by (by rewrite !app_assoc_str).
    apply slice_middle.
Qed.

Lemma reference_loop_ok (ty : reference_type) (word content : string)
    (rs : list reference) :
  for_each (λ m, let! number := Py.int (Re.group content m 1) in
                 ret {| r_type := ty; r_number := number;
                        r_text := Re.group0 content m; r_position := Re.span m |})
           (Re.finditer (Re.Seq (Re.Lit word) (Re.Seq (Re.Plus cls_space)
                                                      (Re.Grp 1 (Re.Plus cls_digit))))
                        content) = inr rs →
  Forall (reference_ok ty word content) rs.
Proof.
  intros Hrs. apply Forall_forall. intros r Hr.
  destruct (for_each_elem _ _ _ _ Hrs Hr) as (m & Hm & Hfm).
  pose proof (finditer_reference_occurrences word content) as Hall.
  rewrite Forall_forall in Hall. destruct (Hall m Hm) as (ws & d & Hocc).
  destruct (reference_occurrence_texts _ _ _ _ _ Hocc) as [Htext Hgroup].
  cbv beta in Hfm. rewrite Hgroup, Htext in Hfm.
  destruct (Py.int d) as [e|number] eqn:Hint; simpl in Hfm; [done|].
  injection Hfm as <-. split; [done|]. exists m, ws, d. repeat split; try done.
  destruct Hocc as (_ & _ & _ & _ & _ & Hd & _).
  apply int_of_digits_value in Hint; [|done].
  by apply (int_digits_nonneg d 0 false).
Qed.

Lemma reference_loop_in_order (ty : reference_type) (r : Re.regex) (content : string)
    (rs : list reference) :
  for_each (λ m, let! number := Py.int (Re.group content m 1) in
                 ret {| r_type := ty; r_number := number;
                        r_text := Re.group0 content m; r_position := Re.span m |})
           (Re.finditer r content) = inr rs →
  StronglySorted span_before (r_position <$> rs).
Proof.
  apply for_each_finditer_in_order. intros m b Hb. cbv beta in Hb.
  destruct (Py.int _); simpl in Hb; [done|]. by injection Hb as <-.
Qed.

(** X9. The references of a text come as the figures followed by the
    tables. Each one stands for an occurrence in the text of the word
    Figure (or Table), at least one blank and a run of digits taken as
    far as the digits go; its text is that occurrence, its position the
    span of it, and its number the value of the digits, never negative.
    Within each kind the spans come left to right and do not overlap. *)
Theorem X9_reference_values (content : string) (rs : list reference) :
  _extract_references __init__ content = inr rs →
  ∃ figures tables,
    rs = figures ++ tables
    ∧ Forall (reference_ok figure "Figure" content) figures
    ∧ Forall (reference_ok table "Table" content) tables
    ∧ StronglySorted span_before (r_position <$> figures)
    ∧ StronglySorted span_before (r_position <$> tables).
Proof.
  unfold _extract_references. cbv zeta.
  destruct (for_each _ (Re.finditer (figure_ref _) _)) as [e|figures] eqn:Hfig;
    cbn [bind]; [done|].
  destruct (for_each _ (Re.finditer (table_ref _) _)) as [e|tables] eqn:Htab;
    cbn [bind]; [done|].
  intros [= <-]. exists figures, tables. split; [done|]. repeat split.
  - by apply (reference_loop_ok figure "Figure" content).
  - by apply (reference_loop_ok table "Table" content).
  - by apply (reference_loop_in_order figure _ content _ Hfig).
  - by apply (reference_loop_in_order table _ content _ Htab).
Qed.

Lemma X9_reference_values_witness :
  ∃ rs,
    _extract_references __init__ "See Figure 12a, Table  3 and Figure 007." = inr rs
    ∧ ∃ figures tables,
        rs = figures ++ tables
        ∧ Forall (reference_ok figure "Figure" "See Figure 12a, Table  3 and Figure 007.")
                 figures
        ∧ Forall (reference_ok table "Table" "See Figure 12a, Table  3 and Figure 007.")
                 tables
        ∧ StronglySorted span_before (r_position <$> figures)
        ∧ StronglySorted span_before (r_position <$> tables).
Proof.
  eexists. split; [vm_compute; reflexivity|].
  apply (X9_reference_values "See Figure 12a, Table  3 and Figure 007.").
  vm_compute. reflexivity.
Defined.

(** ** What the citation summary holds *)

Section OrderedDictKeys.
Context {K V : Type} `{EqDecision K}.
Implicit Types (d : odict K V) (k : K) (v : V).

Lemma od_set_keys_elem k k' v d :
  k' ∈ od_keys (od_set k v d) ↔ k' = k ∨ k' ∈ od_keys d.
Proof.
  unfold od_keys. induction d as [|[k0 v0] d IH]; simpl.
  - rewrite list_elem_of_singleton. split; [auto|]. intros [?|Hin]; [done|].
    by apply elem_of_nil in Hin.
  - case_decide as Hk; simpl.
    + subst k0. rewrite !elem_of_cons. tauto.
    + rewrite !elem_of_cons, IH. tauto.
Qed.

Lemma od_set_keys_NoDup k v d : NoDup (od_keys d) → NoDup (od_keys (od_set k v d)).
Proof.
  induction d as [|[k0 v0] d IH]; simpl.
  - intros _. apply NoDup_singleton.
  - intros [Hk0 Hd]%NoDup_cons. case_decide as Hk; simpl.
    + by apply NoDup_cons.
    + apply NoDup_cons. split; [|by apply IH].
      intros Hin. apply (od_set_keys_elem k k0 v d) in Hin as [->|Hin]; done.
Qed.

Lemma od_set_Forall_any (P : K * V → Prop) k v d :
  P (k, v) → Forall P d → Forall P (od_set k v d).
Proof.
  intros Hkv. induction 1 as [|[k0 v0] d H0 Hd IH]; simpl.
  - by constructor.
  - case_decide as Hk; [subst k0|]; by constructor.
Qed.

Lemma fold_od_set_spec (ks : list K) v d :
  let d' := fold_left (λ u k, od_set k v u) ks d in
  (NoDup (od_keys d) → NoDup (od_keys d'))
  ∧ (∀ k, k ∈ od_keys d' ↔ k ∈ od_keys d ∨ k ∈ ks)
  ∧ (∀ P : K * V → Prop, (∀ k, k ∈ ks → P (k, v)) → Forall P d → Forall P d').
Proof.
  revert d. induction ks as [|k0 ks IH]; intros d; simpl.
  - split; [done|]. split; [|done]. intros k. rewrite elem_of_nil. tauto.
  - destruct (IH (od_set k0 v d)) as (IH1 & IH2 & IH3). split; [|split].
    + intros Hd. by apply IH1, od_set_keys_NoDup.
    + intros k. rewrite IH2, od_set_keys_elem, elem_of_cons. tauto.
    + intros P Hks Hd. apply IH3.
      * intros k Hk. apply Hks. by right.
      * apply od_set_Forall_any; [apply Hks; left|done].
Qed.

Lemma od_keys_value k d : k ∈ od_keys d → ∃ v, (k, v) ∈ d.
Proof.
  unfold od_keys. intros ([k' v] & -> & Hin)%list_elem_of_fmap. by exists v.
Qed.
End OrderedDictKeys.

Lemma add_citation_keys (u : odict citation_key citation) (c : citation) :
  add_citation u c = fold_left (λ u k, od_set k c u) (citation_keys c) u.
Proof.
  destruct c as [text numbers position|text author year position]; simpl; [|done].
  generalize (NumericCitation text numbers position). intros c.
  revert u. induction numbers as [|n numbers IH]; intros u; [done|]. simpl. apply IH.
Qed.

(** What the dictionary built from the citations [seen] holds. *)
Lemma unique_citations_spec (seen : list citation) :
  let u := unique_citations_of seen in
  NoDup (od_keys u)
  ∧ (∀ k, k ∈ od_keys u ↔ k ∈ seen ≫= citation_keys)
  ∧ Forall (λ kv, kv.2 ∈ seen ∧ kv.1 ∈ citation_keys kv.2) u.
Proof.
  unfold unique_citations_of.
  induction seen as [|c seen (IH1 & IH2 & IH3)] using rev_ind; simpl.
  - split; [apply NoDup_nil_2|]. split; [|done]. intros k. done.
  - rewrite fold_left_app. simpl. rewrite add_citation_keys.
    destruct (fold_od_set_spec (citation_keys c) c (fold_left add_citation seen []))
      as (H1 & H2 & H3).
    split; [by apply H1|]. split.
    + intros k. rewrite H2, IH2, bind_app, elem_of_app. simpl.
      by rewrite app_nil_r.
    + apply H3.
      * intros k Hk. simpl. split; [|done]. apply elem_of_app. right. left.
      * eapply Forall_impl; [exact IH3|]. intros [k v] [Hv Hk]. split; [|done].
        apply elem_of_app. by left.
Qed.

(** X10. The number of unique citations is the number of distinct keys
    (numbers, and author_year strings) cited in the sections; every
    citation of the summary is a citation of some section; and every key
    cited has a citation in the summary that holds it. *)
Theorem X10_citation_summary (sections : odict string FormattedSection)
    (style_name : string) :
  let all_citations := all_citations_of sections in
  let citation_info := _process_citations sections style_name in
  ci_unique_citations citation_info
  = length (remove_dups (all_citations ≫= citation_keys))
  ∧ Forall (λ c, c ∈ all_citations) (ci_citations citation_info)
  ∧ ∀ c k, c ∈ all_citations → k ∈ citation_keys c →
      ∃ c', c' ∈ ci_citations citation_info ∧ k ∈ citation_keys c'.
Proof.
  cbv zeta. unfold _process_citations. cbv zeta. simpl.
  destruct (unique_citations_spec (all_citations_of sections)) as (Hnd & Hkeys & Hall).
  cbv zeta in *. split; [|split].
  - rewrite <- (length_fmap fst). apply Permutation_length.
    apply NoDup_Permutation; [done|apply NoDup_remove_dups|].
    intros k. rewrite elem_of_remove_dups. apply Hkeys.
  - unfold od_values. apply Forall_fmap. eapply Forall_impl; [exact Hall|].
    by intros [k v] [Hv _].
  - intros c k Hc Hk.
    assert (k ∈ od_keys (unique_citations_of (all_citations_of sections))) as Hin.
    { apply Hkeys. apply list_elem_of_bind. eauto. }
    apply od_keys_value in Hin as [c' Hin]. exists c'. split.
    + unfold od_values. apply list_elem_of_fmap. by exists (k, c').
    + rewrite Forall_forall in Hall. by destruct (Hall _ Hin).
Qed.

(** ** What [get_template] does to the store *)

Lemma od_get_Forall {V} (P : string * V → Prop) (k : string) (v : V)
    (d : odict string V) :
  Forall P d → od_get k d = Some v → P (k, v).
Proof.
  induction 1 as [|[k0 v0] d H0 Hd IH]; simpl; [done|].
  case_decide as Hk; [|done]. subst k0. by intros [= <-].
Qed.

(** X11. On a store whose registry is as the program keeps it,
    [get_template] changes no object that was there and leaves the
    registry as the program keeps it. Asked for a name that is not
    registered it returns [None] and the store as it was; otherwise it
    returns a new dictionary, made of the entries of the registered one
    with [metadata] set to a second new dictionary that holds the
    timestamp and the name asked for. *)
Theorem X11_get_template_frame (env : environment) (template_name : string) (h : heap) :
  registry_ok h →
  let '(r, h1) := get_template env template_name h in
  registry_ok h1
  ∧ (∀ l, l < next h → objs h1 !! l = objs h !! l)
  ∧ match r with
    | None => h1 = h ∧ dict_getitem h self_templates template_name = None
    | Some t =>
        t = next h
        ∧ ∃ d entries,
            dict_getitem h self_templates template_name = Some (VRef d)
            ∧ objs h !! d = Some (ODict entries)
            ∧ objs h1 !! t = Some (ODict (od_set "metadata" (VRef (S t)) entries))
            ∧ objs h1 !! S t
              = Some (ODict [("timestamp", VStr (_get_timestamp env));
                             ("template_name", VStr template_name)])
            ∧ next h1 = S (S t)
    end.
Proof.
  intros (Hself & registry & Hreg & Hall).
  unfold get_template, dict_getitem. rewrite Hreg.
  destruct (od_get template_name registry) as [v|] eqn:Hv.
  2:{ split; [|done]. split; [done|]. by exists registry. }
  destruct (od_get_Forall _ _ _ _ Hall Hv) as (d & entries & Hvd & Hd & Hobj).
  simpl in Hvd. subst v. rewrite Hobj.
  unfold alloc, dict_setitem. simpl.
  rewrite lookup_insert_ne by lia. rewrite lookup_insert_eq. simpl.
  assert (∀ l, l < next h →
            <[next h:=ODict (od_set "metadata" (VRef (S (next h))) entries)]>
              (<[S (next h):=ODict [("timestamp", VStr (_get_timestamp env));
                                    ("template_name", VStr template_name)]]>
                 (<[next h:=ODict entries]> (objs h))) !! l = objs h !! l) as Hframe.
  { intros l Hl. by rewrite !lookup_insert_ne by lia. }
  split; [|split].
  - split; [simpl; lia|]. exists registry. simpl. split; [by rewrite Hframe|].
    eapply Forall_impl; [exact Hall|].
    intros [k v] (d' & entries' & -> & Hd' & Hobj').
    exists d', entries'. simpl. split; [done|]. split; [lia|]. by rewrite Hframe.
  - exact Hframe.
  - split; [done|]. exists d, entries. repeat split; try done.
    + by rewrite lookup_insert_eq.
    + rewrite lookup_insert_ne by lia. by rewrite lookup_insert_eq.
Qed.

Lemma init_registry_ok : registry_ok init_heap.
Proof.
  split; [vm_compute; lia|].
  exists [("article", VRef 2); ("conference_paper", VRef 5);
          ("technical_report", VRef 8); ("thesis", VRef 11)].
  split; [reflexivity|].
  repeat constructor; simpl; eexists _, _; (split; [reflexivity|]);
    (split; [vm_compute; lia|reflexivity]).
Qed.

Lemma X11_get_template_frame_witness :
  registry_ok init_heap
  ∧ let '(r, h1) := get_template {| _get_timestamp := "t"; _generate_processing_id := "u" |}
                                 "thesis" init_heap in
    registry_ok h1 ∧ r = Some (next init_heap).
Proof.
  split; [exact init_registry_ok|].
  pose proof (X11_get_template_frame
                {| _get_timestamp := "t"; _generate_processing_id := "u" |}
                "thesis" init_heap init_registry_ok) as Hget.
  destruct (get_template _ "thesis" init_heap) as [r h1] eqn:Hrun.
  destruct Hget as (Hok & _ & Hr). split; [done|].
  vm_compute in Hrun. injection Hrun as <- <-. reflexivity.
Defined.
